(** * The compiler-pipeline visualizer front end (script.js)

    A shallow embedding of the script: the prompt for variable types
    ([showTypeInputs], [getTypeTable]), the tree renderer ([buildTreeHTML]),
    the connector pass ([drawTreeLines]) and the three handlers of the
    page ([analyzeLexical], [compile], [reset]).

    Part I holds the definitions, Part II the theorems. *)

From Stdlib Require Import String Ascii.
From Stdlib Require Import List Arith NArith Bool Lia.
Import ListNotations.

Set Warnings "-register-all".

Local Open Scope N_scope.
Local Open Scope list_scope.

(* ================================================================= *)
(** * Part I: definitions *)
(* ================================================================= *)

(** ** ECMAScript strings

    A string value is a sequence of UTF-16 code units. *)

Definition jsstring := list N.

(** [lit s] is the string constant written [s] in the script (ASCII only). *)
Definition lit (s : string) : jsstring :=
  map N_of_ascii (list_ascii_of_string s).

Arguments lit s%_string_scope.

Definition jsstring_dec (a b : jsstring) : {a = b} + {a <> b} :=
  list_eq_dec N.eq_dec a b.

(** [a === b] on strings. *)
Definition strictEq (a b : jsstring) : bool :=
  if jsstring_dec a b then true else false.

(** Truthiness of a string: every string but the empty one. *)
Definition truthy (s : jsstring) : bool :=
  match s with [] => false | _ :: _ => true end.

(** WhiteSpace and LineTerminator code units, the ones [trim] strips. *)
Definition isWhiteSpace (c : N) : bool :=
  (9 <=? c) && (c <=? 13)
  || (c =? 32) || (c =? 160) || (c =? 5760)
  || (8192 <=? c) && (c <=? 8202)
  || (c =? 8232) || (c =? 8233) || (c =? 8239) || (c =? 8287)
  || (c =? 12288) || (c =? 65279).

Fixpoint trimStart (s : jsstring) : jsstring :=
  match s with
  | [] => []
  | c :: r => if isWhiteSpace c then trimStart r else s
  end.

Fixpoint trimEnd (s : jsstring) : jsstring :=
  match s with
  | [] => []
  | c :: r =>
      match trimEnd r with
      | [] => if isWhiteSpace c then [] else [c]
      | t => c :: t
      end
  end.

(** [s.trim()] *)
Definition trim (s : jsstring) : jsstring := trimEnd (trimStart s).

(** [s.split(sep)] for a separator of one code unit: never an empty array. *)
Fixpoint split (sep : N) (s : jsstring) : list jsstring :=
  match s with
  | [] => [[]]
  | c :: r =>
      if c =? sep then [] :: split sep r
      else match split sep r with
           | h :: t => (c :: h) :: t
           | [] => [[c]]
           end
  end.

(** [arr.join('')] *)
Definition join (l : list jsstring) : jsstring := concat l.

(** [arr.join(sep)] *)
Fixpoint joinWith (sep : jsstring) (l : list jsstring) : jsstring :=
  match l with
  | [] => []
  | [x] => x
  | x :: r => x ++ sep ++ joinWith sep r
  end.

Definition equalsSign : N := 61.
Definition doubleQuote : jsstring := [34].
Definition lineFeed : jsstring := [10].

(** ** Data received from the compilation service *)

(** The text that a template literal produces for a symbol's id. *)
Definition SymbolId := jsstring.

(** A symbol table in property order, as [Object.keys] and
    [Object.entries] enumerate it. *)
Definition SymbolTable := list (jsstring * SymbolId).

Definition keys (t : SymbolTable) : list jsstring := map fst t.

Record Token := { tok_type : jsstring; tok_original : jsstring }.

(** ** The type prompt: which variables are asked for a type *)

(** Lines 124-125: the variable being assigned to. *)
Definition assignedVar (codeInput_value : jsstring) : jsstring :=
  let code := trim codeInput_value in
  trim (hd [] (split equalsSign code)).

(** Line 128: [variables.filter(v => v !== assignedVar)]. *)
Definition inputVariables (symbolTable : SymbolTable)
    (codeInput_value : jsstring) : list jsstring :=
  let variables := keys symbolTable in
  let a := assignedVar codeInput_value in
  filter (fun v => negb (strictEq v a)) variables.

(** The assigned variable as the specification words it: the source text
    up to its first equals sign, trimmed. *)
Fixpoint beforeFirst (sep : N) (s : jsstring) : jsstring :=
  match s with
  | [] => []
  | c :: r => if c =? sep then [] else c :: beforeFirst sep r
  end.

Definition assignedVar_spec (sourceText : jsstring) : jsstring :=
  trim (beforeFirst equalsSign sourceText).

(** [l] keeps the relative order of [m]: it is [m] with elements dropped. *)
Inductive Subsequence {A : Type} : list A -> list A -> Prop :=
| Subsequence_nil : Subsequence [] []
| Subsequence_keep x l m : Subsequence l m -> Subsequence (x :: l) (x :: m)
| Subsequence_drop x l m : Subsequence l m -> Subsequence l (x :: m).

(** ** Tree nodes and their markup ([buildTreeHTML], lines 170-210) *)

(** A node of the syntax or semantic tree.  An optional property that is
    absent (or [null]) is [None]. *)
Inductive TreeNode : Type :=
  mkTreeNode {
    node_type : jsstring;
    node_value : jsstring;
    original_name : option jsstring;
    type_info : option jsstring;
    node_left : option TreeNode;
    node_right : option TreeNode
  }.

(** [P] holds of a child that is there. *)
Definition forChild (P : TreeNode -> Prop) (o : option TreeNode) : Prop :=
  match o with Some n => P n | None => True end.

(** [node.type_info === 'int to float'] *)
Definition isIntToFloat (node : TreeNode) : bool :=
  match type_info node with
  | Some s => strictEq s (lit "int to float")
  | None => false
  end.

(** The suffix [' →float']: a space, U+2192, then [float]. *)
Definition coercionSuffix : jsstring := lit " " ++ [8594] ++ lit "float".

(** Lines 173-192: the class attribute and the text of the node's label,
    as the pair [(nodeClass, displayValue)]. *)
Definition nodeLabel (node : TreeNode) (showCoercion : bool)
    : jsstring * jsstring :=
  let nodeClass := lit "tree-node-value" in
  let displayValue := node_value node in
  let '(nodeClass, displayValue) :=
    if strictEq (node_type node) (lit "OP")
       || strictEq (node_type node) (lit "ASSIGN")
    then (nodeClass ++ lit " operator", displayValue)
    else if strictEq (node_type node) (lit "ID")
    then (nodeClass ++ lit " id",
          match original_name node with
          | Some name => if truthy name then name else displayValue
          | None => displayValue
          end)
    else if strictEq (node_type node) (lit "NUMBER")
    then (nodeClass ++ lit " number", displayValue)
    else (nodeClass, displayValue) in
  if showCoercion && isIntToFloat node
  then (nodeClass ++ lit " coerced", displayValue ++ coercionSuffix)
  else (nodeClass, displayValue).

Definition nodeClass (node : TreeNode) (showCoercion : bool) : jsstring :=
  fst (nodeLabel node showCoercion).

Definition displayValue (node : TreeNode) (showCoercion : bool) : jsstring :=
  snd (nodeLabel node showCoercion).

(** The displayed value as the specification words it: the original
    name for an ID node that has a non-empty one, the value otherwise. *)
Definition displayChoice_spec (node : TreeNode) : jsstring :=
  match original_name node with
  | Some name =>
      if strictEq (node_type node) (lit "ID") && negb (strictEq name [])
      then name else node_value node
  | None => node_value node
  end.

(** The opening tag of a [div] with a class attribute. *)
Definition openDiv (class : jsstring) : jsstring :=
  lit "<div class=" ++ doubleQuote ++ class ++ doubleQuote ++ lit ">".

Definition closeDiv : jsstring := lit "</div>".

(** Lines 194-209, for a node that is there. *)
Fixpoint buildTreeHTML_node (node : TreeNode) (showCoercion : bool)
    : jsstring :=
  match node with
  | mkTreeNode _ _ _ _ l r =>
      let html := openDiv (lit "tree-node") in
      let html :=
        html ++ openDiv (nodeClass node showCoercion)
             ++ displayValue node showCoercion ++ closeDiv in
      let html :=
        match l, r with
        | None, None => html
        | _, _ =>
            let html := html ++ openDiv (lit "tree-children") in
            let html :=
              match l with
              | Some n =>
                  html ++ openDiv (lit "tree-child")
                       ++ buildTreeHTML_node n showCoercion ++ closeDiv
              | None => html
              end in
            let html :=
              match r with
              | Some n =>
                  html ++ openDiv (lit "tree-child")
                       ++ buildTreeHTML_node n showCoercion ++ closeDiv
              | None => html
              end in
            html ++ closeDiv
        end in
      html ++ closeDiv
  end.

(** [buildTreeHTML(node, showCoercion)]: the empty string for no node. *)
Definition buildTreeHTML (node : option TreeNode) (showCoercion : bool)
    : jsstring :=
  match node with
  | None => []
  | Some n => buildTreeHTML_node n showCoercion
  end.

(** ** The elements that the markup stands for

    Assigning the markup to [innerHTML] makes the browser build elements.
    [Html] is that structure, for markup whose texts hold no markup of
    their own; [outerHTML] writes it back, and Part II shows that
    [buildTreeDom] written back is [buildTreeHTML]. *)

Inductive Html : Type :=
| HText (data : jsstring)
| HElem (tagName : jsstring) (classList : list jsstring)
        (childNodes : list Html).


(** The class tokens of the label, one per word of [nodeClass]. *)
Definition nodeClassList (node : TreeNode) (showCoercion : bool)
    : list jsstring :=
  [lit "tree-node-value"]
  ++ (if strictEq (node_type node) (lit "OP")
         || strictEq (node_type node) (lit "ASSIGN")
      then [lit "operator"]
      else if strictEq (node_type node) (lit "ID") then [lit "id"]
      else if strictEq (node_type node) (lit "NUMBER") then [lit "number"]
      else [])
  ++ (if showCoercion && isIntToFloat node then [lit "coerced"] else []).

Definition textNodes (data : jsstring) : list Html :=
  if truthy data then [HText data] else [].

Definition div (classes : list jsstring) (kids : list Html) : Html :=
  HElem (lit "div") classes kids.

Fixpoint buildTreeDom_node (node : TreeNode) (showCoercion : bool) : Html :=
  match node with
  | mkTreeNode _ _ _ _ l r =>
      let child (o : option TreeNode) : list Html :=
        match o with
        | Some n => [div [lit "tree-child"] [buildTreeDom_node n showCoercion]]
        | None => []
        end in
      div [lit "tree-node"]
        (div (nodeClassList node showCoercion)
             (textNodes (displayValue node showCoercion))
         :: match l, r with
            | None, None => []
            | _, _ => [div [lit "tree-children"] (child l ++ child r)]
            end)
  end.

Definition buildTreeDom (node : option TreeNode) (showCoercion : bool)
    : list Html :=
  match node with
  | None => []
  | Some n => [buildTreeDom_node n showCoercion]
  end.

(** ** Rendered elements and the connector pass ([drawTreeLines]) *)

(** A position in the document below a container: child indices. *)
Definition Path := list nat.

Section Rendered.

(** The numbers of the page's geometry with the three operations the
    pass applies to them: [+], [-] and [/ 2]. *)
Variable num : Type.
Variables (add sub : num -> num -> num) (half : num -> num).

(** What the pass measures of an element: its bounding client rectangle
    and its scroll size. *)
Record Box : Type := {
  rect_left : num;
  rect_top : num;
  rect_width : num;
  rect_bottom : num;
  scrollWidth : num;
  scrollHeight : num
}.

(** An SVG [line] element with its four attributes. *)
Record Line : Type := { x1 : num; y1 : num; x2 : num; y2 : num }.

(** A rendered node: a text, an element of the page with its measured
    box, or the overlay that lines 217-222 create, an [svg] element of
    class [tree-svg] with its size and its [line] children. *)
Inductive Dom : Type :=
| Text (data : jsstring)
| Elem (box : Box) (tagName : jsstring) (classList : list jsstring)
       (childNodes : list Dom)
| Svg (width height : num) (lines : list Line).

(** The browser lays the elements out: [place] gives each element, found
    by its path below the container, its box. *)
Fixpoint render (place : Path -> Box) (path : Path) (h : Html) : Dom :=
  match h with
  | HText data => Text data
  | HElem tag classes kids =>
      Elem (place path) tag classes
        ((fix renderFrom (i : nat) (l : list Html) : list Dom :=
            match l with
            | [] => []
            | k :: r => render place (path ++ [i]) k :: renderFrom (S i) r
            end) 0%nat kids)
  end.

Fixpoint renderFrom (place : Path -> Box) (path : Path) (i : nat)
    (l : list Html) : list Dom :=
  match l with
  | [] => []
  | k :: r => render place (path ++ [i]) k :: renderFrom place path (S i) r
  end.

(** A container element whose content was set from markup. *)
Definition withInnerHTML (containerBox : Box) (tag : jsstring)
    (classes : list jsstring) (place : Path -> Box) (content : list Html)
    : Dom :=
  Elem containerBox tag classes (renderFrom place [] 0%nat content).

Definition classesOf (d : Dom) : list jsstring :=
  match d with
  | Text _ => []
  | Elem _ _ classes _ => classes
  | Svg _ _ _ => [lit "tree-svg"]
  end.

(** [d] matches the selector [.class]. *)
Definition hasClass (class : jsstring) (d : Dom) : bool :=
  existsb (strictEq class) (classesOf d).

Definition children (d : Dom) : list Dom :=
  match d with
  | Elem _ _ _ kids => kids
  | _ => []
  end.

(** The nodes below [d] in document order. *)
Fixpoint descendants (d : Dom) : list Dom :=
  match d with
  | Elem _ _ _ kids => flat_map (fun k => k :: descendants k) kids
  | _ => []
  end.

(** [d.querySelectorAll('.class')] *)
Definition querySelectorAll (class : jsstring) (d : Dom) : list Dom :=
  filter (hasClass class) (descendants d).

(** [d.querySelectorAll(':scope > .class')] *)
Definition scopeChildren (class : jsstring) (d : Dom) : list Dom :=
  filter (hasClass class) (children d).

(** [d.querySelector(':scope > .class')] *)
Definition scopeChild (class : jsstring) (d : Dom) : option Dom :=
  hd_error (scopeChildren class d).

(** [d.getBoundingClientRect()]; only elements of the page are measured. *)
Definition getBoundingClientRect (d : Dom) : option Box :=
  match d with
  | Elem box _ _ _ => Some box
  | _ => None
  end.

(** [d] without the first node below it, in document order, that matches
    [.class]; [None] when nothing below [d] matches. *)
Fixpoint removeFirst (class : jsstring) (d : Dom) : option Dom :=
  match d with
  | Elem box tag classes kids =>
      option_map (Elem box tag classes)
        ((fix among (l : list Dom) : option (list Dom) :=
            match l with
            | [] => None
            | k :: r =>
                if hasClass class k then Some r
                else match removeFirst class k with
                     | Some k' => Some (k' :: r)
                     | None => option_map (cons k) (among r)
                     end
            end) kids)
  | _ => None
  end.

(** Lines 228-250: the lines drawn for one [.tree-node] element. *)
Definition nodeLines (containerRect : Box) (node : Dom) : list Line :=
  match scopeChild (lit "tree-node-value") node,
        scopeChild (lit "tree-children") node with
  | Some parentValue, Some childrenContainer =>
      let labels :=
        flat_map (scopeChildren (lit "tree-node-value"))
          (flat_map (scopeChildren (lit "tree-node"))
             (scopeChildren (lit "tree-child") childrenContainer)) in
      match getBoundingClientRect parentValue with
      | Some parentRect =>
          let parentX :=
            sub (add (rect_left parentRect) (half (rect_width parentRect)))
                (rect_left containerRect) in
          let parentY :=
            sub (rect_bottom parentRect) (rect_top containerRect) in
          flat_map
            (fun child =>
               match getBoundingClientRect child with
               | Some childRect =>
                   let childX :=
                     sub (add (rect_left childRect)
                              (half (rect_width childRect)))
                         (rect_left containerRect) in
                   let childY :=
                     sub (rect_top childRect) (rect_top containerRect) in
                   [{| x1 := parentX; y1 := parentY;
                       x2 := childX; y2 := childY |}]
               | None => []
               end)
            labels
      | None => []
      end
  | _, _ => []
  end.

(** Lines 225-251: the lines of every [.tree-node] below the container. *)
Definition computeEdges (container : Dom) : list Line :=
  match getBoundingClientRect container with
  | Some containerRect =>
      flat_map (nodeLines containerRect)
        (querySelectorAll (lit "tree-node") container)
  | None => []
  end.

(** [drawTreeLines(container)]: the container afterwards.  The container
    is an element of the page; nothing is drawn on anything else. *)
Definition drawTreeLines (container : Dom) : Dom :=
  match container with
  | Elem box tag classes _ =>
      let container :=
        match removeFirst (lit "tree-svg") container with
        | Some without => without
        | None => container
        end in
      let svg :=
        Svg (scrollWidth box) (scrollHeight box) (computeEdges container) in
      Elem box tag classes (svg :: children container)
  | _ => container
  end.

(** The overlays below a container, and the lines on display. *)
Definition overlays (container : Dom) : list Dom :=
  querySelectorAll (lit "tree-svg") container.

Definition drawnLines (container : Dom) : list Line :=
  flat_map (fun d => match d with Svg _ _ lines => lines | _ => [] end)
    (overlays container).

(** *** The connectors of the abstract tree, as the specification has them

    One edge for each pair of a node and a child of it, the node's own
    edges first (left before right), then those of the left subtree, then
    those of the right one.  [path] is where the node's element lies;
    its label is the first child, the children block the second. *)

Definition anchorLine (containerRect parentRect childRect : Box) : Line :=
  {| x1 := sub (add (rect_left parentRect) (half (rect_width parentRect)))
               (rect_left containerRect);
     y1 := sub (rect_bottom parentRect) (rect_top containerRect);
     x2 := sub (add (rect_left childRect) (half (rect_width childRect)))
               (rect_left containerRect);
     y2 := sub (rect_top childRect) (rect_top containerRect) |}.

Fixpoint treeEdges (containerRect : Box) (place : Path -> Box)
    (path : Path) (node : TreeNode) : list Line :=
  match node with
  | mkTreeNode _ _ _ _ l r =>
      let slot (k : nat) : Path := path ++ [1; k; 0]%nat in
      let own (k : nat) : Line :=
        anchorLine containerRect (place (path ++ [0%nat]))
                   (place (slot k ++ [0%nat])) in
      match l, r with
      | None, None => []
      | Some a, None =>
          own 0%nat :: treeEdges containerRect place (slot 0%nat) a
      | None, Some b =>
          own 0%nat :: treeEdges containerRect place (slot 0%nat) b
      | Some a, Some b =>
          own 0%nat :: own 1%nat
            :: treeEdges containerRect place (slot 0%nat) a
            ++ treeEdges containerRect place (slot 1%nat) b
      end
  end.

End Rendered.

(** The tree of the specification's example: an ASSIGN root with an ID
    child and an OP child that has two NUMBER children. *)
Definition leafNode (kind value : jsstring) : TreeNode :=
  mkTreeNode kind value None None None None.

Definition exampleTree : TreeNode :=
  mkTreeNode (lit "ASSIGN") (lit "=") None None
    (Some (leafNode (lit "ID") (lit "x")))
    (Some (mkTreeNode (lit "OP") (lit "+") None None
             (Some (leafNode (lit "NUMBER") (lit "2")))
             (Some (leafNode (lit "NUMBER") (lit "3"))))).

(** The number of pairs of a node and a child of it. *)
Fixpoint edgeCount (node : TreeNode) : nat :=
  match node with
  | mkTreeNode _ _ _ _ l r =>
      (match l with Some n => S (edgeCount n) | None => 0 end
       + match r with Some n => S (edgeCount n) | None => 0 end)%nat
  end.

Arguments Text {num} data.
Arguments Elem {num} box tagName classList childNodes.
Arguments Svg {num} width height lines.
Arguments Build_Box {num}.
Arguments Build_Line {num}.
Arguments rect_left {num}.
Arguments rect_top {num}.
Arguments rect_width {num}.
Arguments rect_bottom {num}.
Arguments scrollWidth {num}.
Arguments scrollHeight {num}.
Arguments render {num}.
Arguments renderFrom {num}.
Arguments withInnerHTML {num}.
Arguments classesOf {num}.
Arguments hasClass {num}.
Arguments children {num}.
Arguments descendants {num}.
Arguments querySelectorAll {num}.
Arguments scopeChildren {num}.
Arguments scopeChild {num}.
Arguments getBoundingClientRect {num}.
Arguments removeFirst {num}.
Arguments overlays {num}.
Arguments drawnLines {num}.

(** ** The page *)

(** A property value read off an element: a string or [undefined]. *)
Inductive JsValue : Type :=
| Undefined
| Str (s : jsstring).

(** The two options of every type selector (lines 139-140). *)
Inductive PrimType : Type := TInt | TFloat.

Definition optionValue (t : PrimType) : jsstring :=
  match t with TInt => lit "int" | TFloat => lit "float" end.

(** A [select] element made by [showTypeInputs], with its id and the
    option that is selected. *)
Record TypeSelect : Type := { select_id : jsstring; selected : PrimType }.

(** An element that bears an id: a type selector, or another element of
    the page with whatever its [value] property holds. *)
Inductive Element : Type :=
| SelectElement (s : TypeSelect)
| OtherElement (id : jsstring) (value : JsValue).

Definition elementId (e : Element) : jsstring :=
  match e with
  | SelectElement s => select_id s
  | OtherElement id _ => id
  end.

(** [e.value] *)
Definition elementValue (e : Element) : JsValue :=
  match e with
  | SelectElement s => Str (optionValue (selected s))
  | OtherElement _ v => v
  end.

Record Outputs : Type := {
  tokensOutput_innerHTML : jsstring;
  symbolTableBody_innerHTML : jsstring;
  syntaxTree_innerHTML : jsstring;
  semanticTree_innerHTML : jsstring;
  icgOutput_textContent : jsstring;
  optimizedOutput_textContent : jsstring;
  assemblyOutput_textContent : jsstring
}.

Record ErrorDisplay : Type := {
  errorDisplay_textContent : jsstring;
  errorDisplay_display : jsstring
}.

(** What the script reads and writes of the document, with its one
    variable [currentSymbolTable].  The page itself is not part of the
    script: [elementsBefore] and [elementsAfter] are its other elements
    with an id, those that come before the [type-inputs] container in
    document order and those that come after its content, each with the
    [value] it has.  The code input is kept apart as [codeInput_value]:
    its value changes, and the script looks up by id, once it runs, only
    ids that start with [type-]. *)
Record Page : Type := {
  codeInput_value : jsstring;
  compileBtn_disabled : bool;
  typeTableSection_display : jsstring;
  typeInputs_content : list TypeSelect;
  outputs : Outputs;
  errorDisplay : ErrorDisplay;
  currentSymbolTable : SymbolTable;
  elementsBefore : list Element;
  elementsAfter : list Element
}.

Definition set_codeInput_value (v : jsstring) (p : Page) : Page :=
  {| codeInput_value := v;
     compileBtn_disabled := compileBtn_disabled p;
     typeTableSection_display := typeTableSection_display p;
     typeInputs_content := typeInputs_content p;
     outputs := outputs p;
     errorDisplay := errorDisplay p;
     currentSymbolTable := currentSymbolTable p;
     elementsBefore := elementsBefore p;
     elementsAfter := elementsAfter p |}.

Definition set_compileBtn_disabled (v : bool) (p : Page) : Page :=
  {| codeInput_value := codeInput_value p;
     compileBtn_disabled := v;
     typeTableSection_display := typeTableSection_display p;
     typeInputs_content := typeInputs_content p;
     outputs := outputs p;
     errorDisplay := errorDisplay p;
     currentSymbolTable := currentSymbolTable p;
     elementsBefore := elementsBefore p;
     elementsAfter := elementsAfter p |}.

Definition set_typeTableSection_display (v : jsstring) (p : Page) : Page :=
  {| codeInput_value := codeInput_value p;
     compileBtn_disabled := compileBtn_disabled p;
     typeTableSection_display := v;
     typeInputs_content := typeInputs_content p;
     outputs := outputs p;
     errorDisplay := errorDisplay p;
     currentSymbolTable := currentSymbolTable p;
     elementsBefore := elementsBefore p;
     elementsAfter := elementsAfter p |}.

Definition set_typeInputs_content (v : list TypeSelect) (p : Page) : Page :=
  {| codeInput_value := codeInput_value p;
     compileBtn_disabled := compileBtn_disabled p;
     typeTableSection_display := typeTableSection_display p;
     typeInputs_content := v;
     outputs := outputs p;
     errorDisplay := errorDisplay p;
     currentSymbolTable := currentSymbolTable p;
     elementsBefore := elementsBefore p;
     elementsAfter := elementsAfter p |}.

Definition set_outputs (v : Outputs) (p : Page) : Page :=
  {| codeInput_value := codeInput_value p;
     compileBtn_disabled := compileBtn_disabled p;
     typeTableSection_display := typeTableSection_display p;
     typeInputs_content := typeInputs_content p;
     outputs := v;
     errorDisplay := errorDisplay p;
     currentSymbolTable := currentSymbolTable p;
     elementsBefore := elementsBefore p;
     elementsAfter := elementsAfter p |}.

Definition set_errorDisplay (v : ErrorDisplay) (p : Page) : Page :=
  {| codeInput_value := codeInput_value p;
     compileBtn_disabled := compileBtn_disabled p;
     typeTableSection_display := typeTableSection_display p;
     typeInputs_content := typeInputs_content p;
     outputs := outputs p;
     errorDisplay := v;
     currentSymbolTable := currentSymbolTable p;
     elementsBefore := elementsBefore p;
     elementsAfter := elementsAfter p |}.

Definition set_currentSymbolTable (v : SymbolTable) (p : Page) : Page :=
  {| codeInput_value := codeInput_value p;
     compileBtn_disabled := compileBtn_disabled p;
     typeTableSection_display := typeTableSection_display p;
     typeInputs_content := typeInputs_content p;
     outputs := outputs p;
     errorDisplay := errorDisplay p;
     currentSymbolTable := v;
     elementsBefore := elementsBefore p;
     elementsAfter := elementsAfter p |}.

(** The [type-inputs] container (line 9): it holds the selectors, and has
    no [value] of its own. *)
Definition typeInputsElement : Element :=
  OtherElement (lit "type-inputs") Undefined.

(** The elements with an id, in document order: a container comes before
    what it contains. *)
Definition elementsWithId (p : Page) : list Element :=
  elementsBefore p
  ++ typeInputsElement :: map SelectElement (typeInputs_content p)
  ++ elementsAfter p.

(** [document.getElementById(id)]: the first element, in document order,
    with that id. *)
Definition getElementById (p : Page) (id : jsstring) : option Element :=
  find (fun e => strictEq (elementId e) id) (elementsWithId p).

(** ** [showTypeInputs] and [getTypeTable] (lines 120-157) *)

(** The selector that lines 135-143 write for a variable; its first
    option is the selected one. *)
Definition typeSelectFor (varName : jsstring) : TypeSelect :=
  {| select_id := lit "type-" ++ varName; selected := TInt |}.

Definition showTypeInputs (symbolTable : SymbolTable) (p : Page) : Page :=
  let inputVariables := inputVariables symbolTable (codeInput_value p) in
  if (List.length inputVariables =? 0)%nat
  then set_typeTableSection_display (lit "none") p
  else
    let p := set_typeInputs_content (map typeSelectFor inputVariables) p in
    set_typeTableSection_display (lit "block") p.

(** An object under construction, its properties in insertion order. *)
Definition JsObject := list (jsstring * JsValue).

(** [o[k] = v] *)
Fixpoint setProperty (o : JsObject) (k : jsstring) (v : JsValue)
    : JsObject :=
  match o with
  | [] => [(k, v)]
  | (k', v') :: r =>
      if strictEq k' k then (k', v) :: r else (k', v') :: setProperty r k v
  end.

Definition getTypeTable (p : Page) : JsObject :=
  fold_left
    (fun typeTable varName =>
       match getElementById p (lit "type-" ++ varName) with
       | Some select => setProperty typeTable varName (elementValue select)
       | None => typeTable
       end)
    (keys (currentSymbolTable p)) [].

(** A value of the enumerated set: the string [int] or [float]. *)
Definition typeValue (v : JsValue) : Prop :=
  v = Str (lit "int") \/ v = Str (lit "float").

(** The user picks an option of the selector with the given id. *)
Definition chooseOption (id : jsstring) (t : PrimType) (p : Page) : Page :=
  set_typeInputs_content
    (map (fun s => if strictEq (select_id s) id
                   then {| select_id := id; selected := t |} else s)
         (typeInputs_content p))
    p.

(** ** The display functions (lines 108-118, 159-168, 256-286) *)

Definition set_tokensOutput (v : jsstring) (o : Outputs) : Outputs :=
  {| tokensOutput_innerHTML := v;
     symbolTableBody_innerHTML := symbolTableBody_innerHTML o;
     syntaxTree_innerHTML := syntaxTree_innerHTML o;
     semanticTree_innerHTML := semanticTree_innerHTML o;
     icgOutput_textContent := icgOutput_textContent o;
     optimizedOutput_textContent := optimizedOutput_textContent o;
     assemblyOutput_textContent := assemblyOutput_textContent o |}.

Definition set_symbolTableBody (v : jsstring) (o : Outputs) : Outputs :=
  {| tokensOutput_innerHTML := tokensOutput_innerHTML o;
     symbolTableBody_innerHTML := v;
     syntaxTree_innerHTML := syntaxTree_innerHTML o;
     semanticTree_innerHTML := semanticTree_innerHTML o;
     icgOutput_textContent := icgOutput_textContent o;
     optimizedOutput_textContent := optimizedOutput_textContent o;
     assemblyOutput_textContent := assemblyOutput_textContent o |}.

Definition set_syntaxTree (v : jsstring) (o : Outputs) : Outputs :=
  {| tokensOutput_innerHTML := tokensOutput_innerHTML o;
     symbolTableBody_innerHTML := symbolTableBody_innerHTML o;
     syntaxTree_innerHTML := v;
     semanticTree_innerHTML := semanticTree_innerHTML o;
     icgOutput_textContent := icgOutput_textContent o;
     optimizedOutput_textContent := optimizedOutput_textContent o;
     assemblyOutput_textContent := assemblyOutput_textContent o |}.

Definition set_semanticTree (v : jsstring) (o : Outputs) : Outputs :=
  {| tokensOutput_innerHTML := tokensOutput_innerHTML o;
     symbolTableBody_innerHTML := symbolTableBody_innerHTML o;
     syntaxTree_innerHTML := syntaxTree_innerHTML o;
     semanticTree_innerHTML := v;
     icgOutput_textContent := icgOutput_textContent o;
     optimizedOutput_textContent := optimizedOutput_textContent o;
     assemblyOutput_textContent := assemblyOutput_textContent o |}.

Definition set_icgOutput (v : jsstring) (o : Outputs) : Outputs :=
  {| tokensOutput_innerHTML := tokensOutput_innerHTML o;
     symbolTableBody_innerHTML := symbolTableBody_innerHTML o;
     syntaxTree_innerHTML := syntaxTree_innerHTML o;
     semanticTree_innerHTML := semanticTree_innerHTML o;
     icgOutput_textContent := v;
     optimizedOutput_textContent := optimizedOutput_textContent o;
     assemblyOutput_textContent := assemblyOutput_textContent o |}.

Definition set_optimizedOutput (v : jsstring) (o : Outputs) : Outputs :=
  {| tokensOutput_innerHTML := tokensOutput_innerHTML o;
     symbolTableBody_innerHTML := symbolTableBody_innerHTML o;
     syntaxTree_innerHTML := syntaxTree_innerHTML o;
     semanticTree_innerHTML := semanticTree_innerHTML o;
     icgOutput_textContent := icgOutput_textContent o;
     optimizedOutput_textContent := v;
     assemblyOutput_textContent := assemblyOutput_textContent o |}.

Definition set_assemblyOutput (v : jsstring) (o : Outputs) : Outputs :=
  {| tokensOutput_innerHTML := tokensOutput_innerHTML o;
     symbolTableBody_innerHTML := symbolTableBody_innerHTML o;
     syntaxTree_innerHTML := syntaxTree_innerHTML o;
     semanticTree_innerHTML := semanticTree_innerHTML o;
     icgOutput_textContent := icgOutput_textContent o;
     optimizedOutput_textContent := optimizedOutput_textContent o;
     assemblyOutput_textContent := v |}.

Definition displayTokens (tokens : list Token) (p : Page) : Page :=
  set_outputs
    (set_tokensOutput
       (join (map (fun t =>
                     lit "<span class=" ++ doubleQuote ++ lit "token "
                       ++ tok_type t ++ doubleQuote ++ lit ">"
                       ++ tok_original t ++ lit "</span>")
                  tokens))
       (outputs p))
    p.

Definition displaySymbolTable (symbolTable : SymbolTable) (p : Page) : Page :=
  set_outputs
    (set_symbolTableBody
       (join (map (fun entry =>
                     lit "<tr><td>" ++ fst entry ++ lit "</td><td>"
                       ++ snd entry ++ lit "</td></tr>")
                  symbolTable))
       (outputs p))
    p.

(** The overlay that [drawTreeLines] adds 50 ms later is not part of the
    page record; the connector pass is treated on its own above. *)
Definition displaySyntaxTree (tree : option TreeNode) (p : Page) : Page :=
  set_outputs (set_syntaxTree (buildTreeHTML tree false) (outputs p)) p.

Definition displaySemanticTree (tree : option TreeNode) (p : Page) : Page :=
  set_outputs (set_semanticTree (buildTreeHTML tree true) (outputs p)) p.

Definition displayICG (instructions : list jsstring) (p : Page) : Page :=
  set_outputs (set_icgOutput (joinWith lineFeed instructions) (outputs p)) p.

Definition displayOptimized (instructions : list jsstring) (p : Page)
    : Page :=
  set_outputs
    (set_optimizedOutput (joinWith lineFeed instructions) (outputs p)) p.

Definition displayAssembly (instructions : list jsstring) (p : Page)
    : Page :=
  set_outputs
    (set_assemblyOutput (joinWith lineFeed instructions) (outputs p)) p.

(** The message starts with U+274C. *)
Definition showError (message : jsstring) (p : Page) : Page :=
  set_errorDisplay
    {| errorDisplay_textContent := [10060] ++ lit " Error: " ++ message;
       errorDisplay_display := lit "block" |}
    p.

Definition hideError (p : Page) : Page :=
  set_errorDisplay
    {| errorDisplay_textContent := errorDisplay_textContent (errorDisplay p);
       errorDisplay_display := lit "none" |}
    p.

Definition greySpan (text : jsstring) : jsstring :=
  lit "<span style=" ++ doubleQuote ++ lit "color:#666;" ++ doubleQuote
    ++ lit ">" ++ text ++ lit "</span>".

(** The placeholders that [clearOutputs] writes. *)
Definition placeholders : Outputs :=
  {| tokensOutput_innerHTML :=
       greySpan (lit "Click " ++ doubleQuote ++ lit "Analyze Code"
                   ++ doubleQuote ++ lit " to see tokens...");
     symbolTableBody_innerHTML := [];
     syntaxTree_innerHTML := greySpan (lit "Compile to see parse tree...");
     semanticTree_innerHTML :=
       greySpan (lit "Compile to see semantic tree...");
     icgOutput_textContent := lit "Compile to see intermediate code...";
     optimizedOutput_textContent := lit "Compile to see optimized code...";
     assemblyOutput_textContent := lit "Compile to see assembly code..." |}.

Definition clearOutputs (p : Page) : Page :=
  let o := outputs p in
  let o := set_tokensOutput (tokensOutput_innerHTML placeholders) o in
  let o := set_symbolTableBody (symbolTableBody_innerHTML placeholders) o in
  let o := set_syntaxTree (syntaxTree_innerHTML placeholders) o in
  let o := set_semanticTree (semanticTree_innerHTML placeholders) o in
  let o := set_icgOutput (icgOutput_textContent placeholders) o in
  let o :=
    set_optimizedOutput (optimizedOutput_textContent placeholders) o in
  let o := set_assemblyOutput (assemblyOutput_textContent placeholders) o in
  set_outputs o p.

(** ** The service and the three handlers (lines 30-105, 288-296) *)

Record LexicalData : Type := {
  tokens : list Token;
  symbol_table : SymbolTable
}.

Record CompileData : Type := {
  lexical : LexicalData;
  syntax_tree : option TreeNode;
  semantic_tree : option TreeNode;
  intermediate_code : list jsstring;
  optimized_code : list jsstring;
  assembly_code : list jsstring
}.

(** How a request ends: the [fetch] (or the reading of its body) throws
    an error with a message, or the service answers with [success] false
    and maybe [detail] and [error], or with [success] true and the data
    of the contract. *)
Inductive Reply (A : Type) : Type :=
| Thrown (message : jsstring)
| Refused (detail error : option jsstring)
| Succeeded (data : A).

Arguments Thrown {A} message.
Arguments Refused {A} detail error.
Arguments Succeeded {A} data.

(** A POST that the script sends, with the body it serializes. *)
Inductive Request : Type :=
| PostLexical (code : jsstring)
| PostCompile (code : jsstring) (type_table : list (jsstring * jsstring)).

(** [JSON.stringify] leaves out the properties that are [undefined]. *)
Definition stringifiable (o : JsObject) : list (jsstring * jsstring) :=
  flat_map (fun kv => match snd kv with
                      | Str s => [(fst kv, s)]
                      | Undefined => []
                      end) o.

(** [data.detail || data.error || fallback] *)
Definition errorMessage (detail error : option jsstring)
    (fallback : jsstring) : jsstring :=
  match detail with
  | Some d => if truthy d then d
              else match error with
                   | Some e => if truthy e then e else fallback
                   | None => fallback
                   end
  | None => match error with
            | Some e => if truthy e then e else fallback
            | None => fallback
            end
  end.

(** [analyzeLexical()], run to its end with the reply that its request,
    if it sends one, receives: the page afterwards and the requests sent. *)
Definition analyzeLexical (p : Page) (reply : Reply LexicalData)
    : Page * list Request :=
  let code := trim (codeInput_value p) in
  if negb (truthy code)
  then (showError (lit "Please enter some code to analyze.") p, [])
  else
    let p := hideError p in
    let p := clearOutputs p in
    let sent := [PostLexical code] in
    match reply with
    | Thrown message =>
        (showError (lit "Error connecting to API: " ++ message) p, sent)
    | Refused detail error =>
        (showError (errorMessage detail error (lit "Analysis failed")) p,
         sent)
    | Succeeded data =>
        let p := displayTokens (tokens data) p in
        let p := displaySymbolTable (symbol_table data) p in
        let p := set_currentSymbolTable (symbol_table data) p in
        let p := showTypeInputs (symbol_table data) p in
        let p := set_compileBtn_disabled false p in
        (p, sent)
    end.

(** [compile()], likewise. *)
Definition compile (p : Page) (reply : Reply CompileData)
    : Page * list Request :=
  let code := trim (codeInput_value p) in
  let typeTable := getTypeTable p in
  let p := hideError p in
  let sent := [PostCompile code (stringifiable typeTable)] in
  match reply with
  | Thrown message =>
      (showError (lit "Error connecting to API: " ++ message) p, sent)
  | Refused detail error =>
      (showError (errorMessage detail error (lit "Compilation failed")) p,
       sent)
  | Succeeded data =>
      let p := displayTokens (tokens (lexical data)) p in
      let p := displaySymbolTable (symbol_table (lexical data)) p in
      let p := displaySyntaxTree (syntax_tree data) p in
      let p := displaySemanticTree (semantic_tree data) p in
      let p := displayICG (intermediate_code data) p in
      let p := displayOptimized (optimized_code data) p in
      let p := displayAssembly (assembly_code data) p in
      (p, sent)
  end.

Definition reset (p : Page) : Page :=
  let p := set_codeInput_value [] p in
  let p := set_currentSymbolTable [] p in
  let p := set_typeTableSection_display (lit "none") p in
  let p := set_typeInputs_content [] p in
  let p := set_compileBtn_disabled true p in
  let p := clearOutputs p in
  hideError p.

(** The user types the source. *)
Definition typeCode (code : jsstring) (p : Page) : Page :=
  set_codeInput_value code p.

(** A page as it may be loaded: nothing typed, nothing shown, the compile
    button disabled, and for elements with an id those that lines 4-17
    look up, in that order. *)
Definition loadedPage : Page :=
  {| codeInput_value := [];
     compileBtn_disabled := true;
     typeTableSection_display := lit "none";
     typeInputs_content := [];
     outputs :=
       {| tokensOutput_innerHTML := [];
          symbolTableBody_innerHTML := [];
          syntaxTree_innerHTML := [];
          semanticTree_innerHTML := [];
          icgOutput_textContent := [];
          optimizedOutput_textContent := [];
          assemblyOutput_textContent := [] |};
     errorDisplay :=
       {| errorDisplay_textContent := [];
          errorDisplay_display := lit "none" |};
     currentSymbolTable := [];
     elementsBefore :=
       [OtherElement (lit "analyze-btn") (Str []);
        OtherElement (lit "compile-btn") (Str []);
        OtherElement (lit "reset-btn") (Str []);
        OtherElement (lit "type-table-section") Undefined];
     elementsAfter :=
       [OtherElement (lit "tokens-output") Undefined;
        OtherElement (lit "symbol-table") Undefined;
        OtherElement (lit "syntax-tree") Undefined;
        OtherElement (lit "semantic-tree") Undefined;
        OtherElement (lit "icg-output") Undefined;
        OtherElement (lit "optimized-output") Undefined;
        OtherElement (lit "assembly-output") Undefined;
        OtherElement (lit "error-display") Undefined] |}.

(** The page after the source [code] is typed and analysed, the service
    answering with the symbol table given. *)
Definition analysed (code : jsstring) (symbolTable : SymbolTable)
    (p : Page) : Page :=
  fst (analyzeLexical (typeCode code p)
         (Succeeded {| tokens := []; symbol_table := symbolTable |})).

(** ** The pipeline state

    The script keeps no variable for it.  [PipelineState] is the phase of
    the specification, kept beside the page as the handlers run: [Idle]
    until an analysis succeeds, [Analyzed] from then on, [Compiled] once a
    compilation succeeds, and [Idle] again after a reset. *)

Inductive PipelineState : Type := Idle | Analyzed | Compiled.

Record Controller : Type := { phase : PipelineState; page : Page }.

(** An analysis fails on an empty source, on a thrown error and on a
    refusal of the service. *)
Definition analyzeFails (p : Page) (reply : Reply LexicalData) : bool :=
  negb (truthy (trim (codeInput_value p)))
  || match reply with Succeeded _ => false | _ => true end.

Definition runAnalyze (c : Controller) (reply : Reply LexicalData)
    : Controller * list Request :=
  let (p, sent) := analyzeLexical (page c) reply in
  ({| phase := if analyzeFails (page c) reply then phase c else Analyzed;
      page := p |}, sent).

Definition runCompile (c : Controller) (reply : Reply CompileData)
    : Controller * list Request :=
  let (p, sent) := compile (page c) reply in
  ({| phase := match reply with Succeeded _ => Compiled | _ => phase c end;
      page := p |}, sent).

Definition runReset (c : Controller) : Controller :=
  {| phase := Idle; page := reset (page c) |}.

(** Line 23: a click on the compile button calls [compile]; a disabled
    button dispatches no click. *)
Definition clickCompile (c : Controller) (reply : Reply CompileData)
    : Controller * list Request :=
  if compileBtn_disabled (page c) then (c, []) else runCompile c reply.

(** Line 299: the script starts by clearing the outputs. *)
Definition startup (loaded : Page) : Controller :=
  {| phase := Idle;
     page := clearOutputs (set_currentSymbolTable [] loaded) |}.

(** The controller after the script has started on the loaded page and
    the source [x = a + b] was analysed: the example of a page that shows
    artifacts. *)
Definition analysedExample : Controller :=
  fst (runAnalyze
         {| phase := phase (startup loadedPage);
            page := typeCode (lit "x = a + b") (page (startup loadedPage)) |}
         (Succeeded
            {| tokens :=
                 [{| tok_type := lit "identifier"; tok_original := lit "x" |};
                  {| tok_type := lit "assignment"; tok_original := lit "=" |};
                  {| tok_type := lit "identifier"; tok_original := lit "a" |};
                  {| tok_type := lit "operator"; tok_original := lit "+" |};
                  {| tok_type := lit "identifier"; tok_original := lit "b" |}];
               symbol_table :=
                 [(lit "x", lit "0"); (lit "a", lit "1"); (lit "b", lit "2")]
            |})).

(** ** The events of the page (lines 21-27) *)

(** What the user does: a click on one of the three buttons, a key
    pressed in the code input, a new source typed, an option chosen in a
    selector.  An event that calls a handler comes with the reply that
    the handler's request, if it sends one, receives. *)
Inductive Event : Type :=
| AnalyzeClicked (reply : Reply LexicalData)
| KeyPressed (key : jsstring) (reply : Reply LexicalData)
| CompileClicked (reply : Reply CompileData)
| ResetClicked
| CodeTyped (code : jsstring)
| OptionChosen (id : jsstring) (t : PrimType).

(** The listeners of lines 22-27, each handler run to its end. *)
Definition handle (c : Controller) (e : Event) : Controller * list Request :=
  match e with
  | AnalyzeClicked reply => runAnalyze c reply
  | KeyPressed key reply =>
      if strictEq key (lit "Enter") then runAnalyze c reply else (c, [])
  | CompileClicked reply => clickCompile c reply
  | ResetClicked => (runReset c, [])
  | CodeTyped code =>
      ({| phase := phase c; page := typeCode code (page c) |}, [])
  | OptionChosen id t =>
      ({| phase := phase c; page := chooseOption id t (page c) |}, [])
  end.

(** The events in turn: the controller at the end and every request
    sent, in order. *)
Fixpoint run (c : Controller) (events : list Event)
    : Controller * list Request :=
  match events with
  | [] => (c, [])
  | e :: rest =>
      let (c1, sent1) := handle c e in
      let (c2, sent2) := run c1 rest in
      (c2, sent1 ++ sent2)
  end.

(** The events that call a handler which may send a request: a click on
    the analyze button or on the compile button, and the Enter key. *)
Definition callsHandler (e : Event) : bool :=
  match e with
  | AnalyzeClicked _ | CompileClicked _ => true
  | KeyPressed key _ => strictEq key (lit "Enter")
  | ResetClicked | CodeTyped _ | OptionChosen _ _ => false
  end.

(** The markup of one token (line 110) and of one row of the symbol
    table (line 116). *)
Definition tokenMarkup (t : Token) : jsstring :=
  lit "<span class=" ++ doubleQuote ++ lit "token " ++ tok_type t
    ++ doubleQuote ++ lit ">" ++ tok_original t ++ lit "</span>".

Definition rowMarkup (entry : jsstring * SymbolId) : jsstring :=
  lit "<tr><td>" ++ fst entry ++ lit "</td><td>" ++ snd entry
    ++ lit "</td></tr>".

(** ** What the handlers leave on display *)

(** The artifacts after an analysis that succeeds, read off its reply. *)
Definition analysedOutputs (data : LexicalData) : Outputs :=
  outputs
    (displaySymbolTable (symbol_table data)
       (displayTokens (tokens data) (clearOutputs loadedPage))).

(** The artifacts after a compilation that succeeds, read off its reply. *)
Definition compiledOutputs (data : CompileData) : Outputs :=
  {| tokensOutput_innerHTML :=
       tokensOutput_innerHTML
         (outputs (displayTokens (tokens (lexical data)) loadedPage));
     symbolTableBody_innerHTML :=
       symbolTableBody_innerHTML
         (outputs (displaySymbolTable (symbol_table (lexical data))
                     loadedPage));
     syntaxTree_innerHTML := buildTreeHTML (syntax_tree data) false;
     semanticTree_innerHTML := buildTreeHTML (semantic_tree data) true;
     icgOutput_textContent := joinWith lineFeed (intermediate_code data);
     optimizedOutput_textContent := joinWith lineFeed (optimized_code data);
     assemblyOutput_textContent := joinWith lineFeed (assembly_code data) |}.

(** A request failed: it threw, or the service refused. *)
Definition failed {A : Type} (reply : Reply A) : bool :=
  match reply with Succeeded _ => false | _ => true end.



(** No other element of the page has the id of a selector of [names],
    and none of the names is [inputs], whose selector would share the id
    of the prompt's container. *)
Definition selectorIdsFree (p : Page) (names : list jsstring) : Prop :=
  ~ In (lit "inputs") names
  /\ forall k e, In k names -> In e (elementsBefore p ++ elementsAfter p) ->
                 elementId e <> lit "type-" ++ k.

(** ** Measures of a tree *)

(** The number of nodes of a tree. *)
Fixpoint nodeCount (node : TreeNode) : nat :=
  match node with
  | mkTreeNode _ _ _ _ l r =>
      S (match l with Some n => nodeCount n | None => 0 end
         + match r with Some n => nodeCount n | None => 0 end)%nat
  end.

(** The tree without any [type_info]. *)
Fixpoint eraseTypeInfo (node : TreeNode) : TreeNode :=
  match node with
  | mkTreeNode nt v on _ l r =>
      mkTreeNode nt v on None
        (match l with Some n => Some (eraseTypeInfo n) | None => None end)
        (match r with Some n => Some (eraseTypeInfo n) | None => None end)
  end.

(* ================================================================= *)
(** * Part II: theorems *)
(* ================================================================= *)

(** ** Strings *)

Lemma strictEq_true_iff (a b : jsstring) : strictEq a b = true <-> a = b.
Proof.
  unfold strictEq. destruct (jsstring_dec a b); split; congruence.
Qed.

Lemma strictEq_false_iff (a b : jsstring) : strictEq a b = false <-> a <> b.
Proof.
  unfold strictEq. destruct (jsstring_dec a b); split; congruence.
Qed.

Lemma strictEq_refl (a : jsstring) : strictEq a a = true.
Proof. now apply strictEq_true_iff. Qed.

Lemma equalsSign_not_whiteSpace : isWhiteSpace equalsSign = false.
Proof. reflexivity. Qed.

Lemma whiteSpace_not_equalsSign (c : N) :
  isWhiteSpace c = true -> (c =? equalsSign) = false.
Proof.
  intros Hc. destruct (N.eqb_spec c equalsSign) as [->|]; [|reflexivity].
  rewrite equalsSign_not_whiteSpace in Hc. discriminate.
Qed.

Lemma hd_split (sep : N) (s : jsstring) :
  hd [] (split sep s) = beforeFirst sep s.
Proof.
  induction s as [|c r IH]; simpl; [reflexivity|].
  destruct (c =? sep); [reflexivity|].
  destruct (split sep r) as [|h t]; simpl in *; congruence.
Qed.

Lemma trimStart_idempotent (s : jsstring) :
  trimStart (trimStart s) = trimStart s.
Proof.
  induction s as [|c r IH]; simpl; [reflexivity|].
  destruct (isWhiteSpace c) eqn:Hc; [exact IH|].
  simpl. now rewrite Hc.
Qed.

Lemma trimEnd_cons (c : N) (r : jsstring) :
  trimEnd (c :: r)
  = match trimEnd r with
    | [] => if isWhiteSpace c then [] else [c]
    | t => c :: t
    end.
Proof. reflexivity. Qed.

(** Trimming the end keeps a first code unit that is no white space. *)
Lemma trimEnd_keeps_head (c : N) (r : jsstring) :
  isWhiteSpace c = false -> exists t, trimEnd (c :: r) = c :: t.
Proof.
  intros Hc. rewrite trimEnd_cons, Hc.
  destruct (trimEnd r) as [|d t]; eauto.
Qed.

Lemma trimStart_trimEnd (s : jsstring) :
  trimStart (trimEnd s) = trimEnd (trimStart s).
Proof.
  induction s as [|c r IH]; [reflexivity|].
  destruct (isWhiteSpace c) eqn:Hc.
  - change (trimStart (c :: r)) with
      (if isWhiteSpace c then trimStart r else c :: r).
    rewrite Hc, <- IH, trimEnd_cons, Hc.
    destruct (trimEnd r) as [|d t]; [reflexivity|].
    simpl. now rewrite Hc.
  - change (trimStart (c :: r)) with
      (if isWhiteSpace c then trimStart r else c :: r).
    rewrite Hc.
    destruct (trimEnd_keeps_head c r Hc) as [t ->].
    simpl. now rewrite Hc.
Qed.

Lemma trimStart_beforeFirst (s : jsstring) :
  trimStart (beforeFirst equalsSign s) = beforeFirst equalsSign (trimStart s).
Proof.
  induction s as [|c r IH]; [reflexivity|].
  simpl. destruct (isWhiteSpace c) eqn:Hc.
  - rewrite (whiteSpace_not_equalsSign c Hc). simpl. now rewrite Hc.
  - simpl. destruct (c =? equalsSign); [reflexivity|].
    simpl. now rewrite Hc.
Qed.

Lemma trimEnd_beforeFirst_trimEnd (s : jsstring) :
  trimEnd (beforeFirst equalsSign (trimEnd s))
  = trimEnd (beforeFirst equalsSign s).
Proof.
  induction s as [|c r IH]; [reflexivity|].
  rewrite trimEnd_cons.
  destruct (c =? equalsSign) eqn:Heq.
  - apply N.eqb_eq in Heq. subst c.
    rewrite equalsSign_not_whiteSpace.
    destruct (trimEnd r); reflexivity.
  - destruct (trimEnd r) as [|d t] eqn:Hr.
    + simpl in IH.
      destruct (isWhiteSpace c) eqn:Hc; simpl; rewrite Heq;
        rewrite (trimEnd_cons c (beforeFirst equalsSign r)), <- IH, ?Hc;
        simpl; rewrite ?Hc; reflexivity.
    + simpl beforeFirst at 2. rewrite Heq.
      change (beforeFirst equalsSign (c :: d :: t))
        with (if c =? equalsSign then []
              else c :: beforeFirst equalsSign (d :: t)).
      rewrite Heq, !trimEnd_cons, IH. reflexivity.
Qed.

(** The two trims of the script come to the one trim of the
    specification: trimming the source first changes nothing. *)
Lemma assignedVar_refines (sourceText : jsstring) :
  assignedVar sourceText = assignedVar_spec sourceText.
Proof.
  unfold assignedVar, assignedVar_spec, trim.
  rewrite hd_split, trimStart_beforeFirst, trimStart_trimEnd.
  rewrite trimStart_idempotent, trimEnd_beforeFirst_trimEnd.
  now rewrite trimStart_beforeFirst.
Qed.

(** ** The required inputs *)

Lemma filter_Subsequence {A : Type} (f : A -> bool) (l : list A) :
  Subsequence (filter f l) l.
Proof.
  induction l as [|x l IH]; simpl; [constructor|].
  destruct (f x); now constructor.
Qed.

Lemma filter_differs_remove (a : jsstring) (l : list jsstring) :
  filter (fun v => negb (strictEq v a)) l = remove jsstring_dec a l.
Proof.
  induction l as [|x l IH]; simpl; [reflexivity|].
  unfold strictEq at 1.
  destruct (jsstring_dec x a), (jsstring_dec a x); simpl; congruence.
Qed.

(** C4. For every symbol table and source text, the required inputs are
    the names of the symbol table, in its order, with the assigned
    variable removed and nothing else: the assigned variable (the source
    up to its first equals sign, trimmed) is never among them, every
    other name is, and the order of the names is kept. *)
Theorem requiredInputs_removes_assigned
    (symbolTable : SymbolTable) (sourceText : jsstring) :
  let assigned := assignedVar_spec sourceText in
  let required := inputVariables symbolTable sourceText in
  required = remove jsstring_dec assigned (keys symbolTable)
  /\ ~ In assigned required
  /\ (forall v, In v required <-> In v (keys symbolTable) /\ v <> assigned)
  /\ Subsequence required (keys symbolTable).
Proof.
  intros assigned required.
  assert (Hdef : required
                 = filter (fun v => negb (strictEq v assigned))
                     (keys symbolTable)).
  { unfold required, inputVariables. now rewrite assignedVar_refines. }
  split; [|split; [|split]].
  - rewrite Hdef. apply filter_differs_remove.
  - rewrite Hdef, filter_differs_remove. apply remove_In.
  - intros v. rewrite Hdef, filter_In, negb_true_iff, strictEq_false_iff.
    reflexivity.
  - rewrite Hdef. apply filter_Subsequence.
Qed.

(** The example of the specification: source [x = a + b] and symbol
    table [{x: 0, a: 1, b: 2}] require [a] and [b], in that order. *)
Example requiredInputs_example :
  inputVariables [(lit "x", lit "0"); (lit "a", lit "1"); (lit "b", lit "2")]
                 (lit "x = a + b")
  = [lit "a"; lit "b"].
Proof. reflexivity. Qed.

(** ** The label of a tree node *)

(** Induction on a tree node, with the property known of the children
    that are there. *)
Lemma TreeNode_induction (P : TreeNode -> Prop) :
  (forall nt v on ti l r,
      forChild P l -> forChild P r -> P (mkTreeNode nt v on ti l r)) ->
  forall node, P node.
Proof.
  intros step. fix IH 1. intros [nt v on ti l r].
  apply step.
  - destruct l as [n|]; simpl; [apply IH|exact I].
  - destruct r as [n|]; simpl; [apply IH|exact I].
Qed.

Lemma isIntToFloat_iff (node : TreeNode) :
  isIntToFloat node = true <-> type_info node = Some (lit "int to float").
Proof.
  unfold isIntToFloat. destruct (type_info node) as [s|].
  - rewrite strictEq_true_iff. split; congruence.
  - split; discriminate.
Qed.

(** The label with the coercion asked for is the label without, plus the
    marker when the node is a coerced one. *)
Lemma nodeLabel_coercion (node : TreeNode) (showCoercion : bool) :
  nodeLabel node showCoercion
  = if showCoercion && isIntToFloat node
    then (nodeClass node false ++ lit " coerced",
          displayValue node false ++ coercionSuffix)
    else (nodeClass node false, displayValue node false).
Proof.
  unfold nodeClass, displayValue, nodeLabel.
  destruct (strictEq (node_type node) (lit "OP")
            || strictEq (node_type node) (lit "ASSIGN"));
    [|destruct (strictEq (node_type node) (lit "ID"));
      [|destruct (strictEq (node_type node) (lit "NUMBER"))]];
    destruct (showCoercion && isIntToFloat node); reflexivity.
Qed.

Lemma app_nonempty_differs {A : Type} (l m : list A) :
  m <> [] -> l ++ m <> l.
Proof.
  intros Hm E. apply Hm.
  apply (app_inv_head l). now rewrite app_nil_r.
Qed.

Lemma nodeClassList_coerced (node : TreeNode) (showCoercion : bool) :
  In (lit "coerced") (nodeClassList node showCoercion)
  <-> showCoercion && isIntToFloat node = true.
Proof.
  unfold nodeClassList.
  destruct (showCoercion && isIntToFloat node).
  - split; [reflexivity|]. intros _. apply in_or_app. right.
    apply in_or_app. right. now left.
  - split; [|discriminate]. intros H.
    apply in_app_or in H as [H|H]; [|apply in_app_or in H as [H|H]].
    + destruct H as [H|[]]. discriminate.
    + destruct (strictEq (node_type node) (lit "OP")
                || strictEq (node_type node) (lit "ASSIGN"));
        [|destruct (strictEq (node_type node) (lit "ID"));
          [|destruct (strictEq (node_type node) (lit "NUMBER"))]];
        simpl in H; intuition discriminate.
    + destruct H.
Qed.

(** C5. For every tree node, the label carries the coercion marker (the
    suffix on the displayed value and the class [coerced]) if and only if
    [showCoercion] is true and [type_info] is the string [int to float];
    in every other case the label is the one drawn without coercions. *)
Theorem coercion_marker_iff (node : TreeNode) (showCoercion : bool) :
  let marked := showCoercion = true
                /\ type_info node = Some (lit "int to float") in
  let plain := (nodeClass node false, displayValue node false) in
  ((nodeClass node showCoercion, displayValue node showCoercion)
   = (fst plain ++ lit " coerced", snd plain ++ coercionSuffix) <-> marked)
  /\ ((nodeClass node showCoercion, displayValue node showCoercion) = plain
      <-> ~ marked)
  /\ (In (lit "coerced") (nodeClassList node showCoercion) <-> marked)
  /\ ~ In (lit "coerced") (nodeClassList node false).
Proof.
  intros marked plain.
  assert (Hm : marked <-> showCoercion && isIntToFloat node = true).
  { unfold marked. rewrite andb_true_iff, isIntToFloat_iff. reflexivity. }
  assert (Hl : (nodeClass node showCoercion, displayValue node showCoercion)
               = nodeLabel node showCoercion).
  { unfold nodeClass, displayValue.
    now destruct (nodeLabel node showCoercion). }
  rewrite Hl, nodeLabel_coercion. unfold plain. simpl fst. simpl snd.
  split; [split|split; [split|split; [split|]]].
  - intros H. apply Hm.
    destruct (showCoercion && isIntToFloat node); [reflexivity|].
    exfalso. injection H as H _. symmetry in H. revert H.
    apply app_nonempty_differs. discriminate.
  - intros H. apply Hm in H. now rewrite H.
  - intros H Hmarked. apply Hm in Hmarked. rewrite Hmarked in H.
    injection H as H _. revert H. apply app_nonempty_differs. discriminate.
  - intros H. destruct (showCoercion && isIntToFloat node); [|reflexivity].
    exfalso. apply H, Hm. reflexivity.
  - intros H. apply Hm. now apply nodeClassList_coerced.
  - intros H. apply nodeClassList_coerced. now apply Hm.
  - intros H. apply nodeClassList_coerced in H. discriminate.
Qed.

(** Without coercions, the text of the label is the choice that the
    specification describes. *)
Lemma displayValue_plain (node : TreeNode) :
  displayValue node false = displayChoice_spec node.
Proof.
  unfold displayValue, nodeLabel, displayChoice_spec. simpl andb.
  destruct (strictEq (node_type node) (lit "ID")) eqn:Hid.
  - apply strictEq_true_iff in Hid. rewrite Hid. simpl.
    destruct (original_name node) as [[|c name]|]; reflexivity.
  - destruct (strictEq (node_type node) (lit "OP")
              || strictEq (node_type node) (lit "ASSIGN"));
      [|destruct (strictEq (node_type node) (lit "NUMBER"))];
      simpl; destruct (original_name node); reflexivity.
Qed.

(** C6. For every tree node, the value chosen for display is
    [original_name] when the node is an ID node with a non-empty
    [original_name], and the [value] property in every other case; the
    displayed text is that choice, followed by the coercion suffix when
    the node is marked. *)
Theorem displayValue_choice (node : TreeNode) (showCoercion : bool) :
  displayValue node false = displayChoice_spec node
  /\ displayValue node showCoercion
     = displayChoice_spec node
       ++ (if showCoercion && isIntToFloat node
           then coercionSuffix else []).
Proof.
  split; [apply displayValue_plain|].
  unfold displayValue at 1.
  rewrite nodeLabel_coercion, <- displayValue_plain.
  destruct (showCoercion && isIntToFloat node); simpl;
    [reflexivity|now rewrite app_nil_r].
Qed.

(** An ID node with a non-empty original name shows that name. *)
Corollary displayValue_original_name (node : TreeNode) (name : jsstring) :
  node_type node = lit "ID" ->
  original_name node = Some name ->
  name <> [] ->
  displayValue node false = name.
Proof.
  intros Hid Hname Hne.
  rewrite displayValue_plain.
  unfold displayChoice_spec. rewrite Hname, Hid, strictEq_refl.
  apply strictEq_false_iff in Hne. now rewrite Hne.
Qed.

(** A node that is no ID node, or has no original name, or an empty one,
    shows its value. *)
Corollary displayValue_value (node : TreeNode) :
  node_type node <> lit "ID"
  \/ original_name node = None
  \/ original_name node = Some [] ->
  displayValue node false = node_value node.
Proof.
  intros H.
  rewrite displayValue_plain.
  unfold displayChoice_spec.
  destruct H as [H|[H|H]].
  - apply strictEq_false_iff in H. rewrite H.
    now destruct (original_name node).
  - now rewrite H.
  - rewrite H, strictEq_refl. now rewrite andb_false_r.
Qed.

(** ** The markup and the elements it stands for *)






(** ** The connector pass *)

Arguments lit : simpl never.
Arguments strictEq : simpl never.

Section RenderedFacts.

Variable num : Type.
Variables (add sub : num -> num -> num) (half : num -> num).

Let Dom := Dom num.
Let Box := Box num.

Lemma render_HElem (place : Path -> Box) (path : Path) (tag : jsstring)
    (classes : list jsstring) (kids : list Html) :
  render place path (HElem tag classes kids)
  = Elem (place path) tag classes (renderFrom place path 0 kids).
Proof.
  cbn [render]. f_equal. generalize 0%nat.
  induction kids as [|k r IH]; intros i; cbn [renderFrom]; [reflexivity|].
  now rewrite IH.
Qed.

Ltac decide_classes :=
  repeat match goal with
         | |- context [strictEq (lit ?a) (lit ?b)] =>
             let v := eval vm_compute in (strictEq (lit a) (lit b)) in
             change (strictEq (lit a) (lit b)) with v
         end.

Lemma label_classes (node : TreeNode) (showCoercion : bool) :
  existsb (strictEq (lit "tree-node-value"))
          (nodeClassList node showCoercion) = true
  /\ existsb (strictEq (lit "tree-node"))
             (nodeClassList node showCoercion) = false
  /\ existsb (strictEq (lit "tree-children"))
             (nodeClassList node showCoercion) = false
  /\ existsb (strictEq (lit "tree-svg"))
             (nodeClassList node showCoercion) = false.
Proof.
  unfold nodeClassList.
  destruct (strictEq (node_type node) (lit "OP")
            || strictEq (node_type node) (lit "ASSIGN"));
    [|destruct (strictEq (node_type node) (lit "ID"));
      [|destruct (strictEq (node_type node) (lit "NUMBER"))]];
    destruct (showCoercion && isIntToFloat node);
    cbn [app existsb]; decide_classes; repeat split; reflexivity.
Qed.


Lemma hasClass_Elem (class : jsstring) (box : Box) (tag : jsstring)
    (classes : list jsstring) (kids : list Dom) :
  hasClass class (Elem box tag classes kids)
  = existsb (strictEq class) classes.
Proof. reflexivity. Qed.

(** Texts match no class selector. *)
Lemma texts_unselected (class : jsstring) (place : Path -> Box)
    (path : Path) (i : nat) (data : jsstring) :
  filter (hasClass class)
    (flat_map (fun k => k :: descendants k)
       (renderFrom place path i (textNodes data))) = [].
Proof. destruct data; reflexivity. Qed.

Section OneTree.

Variables (containerRect : Box) (place : Path -> Box) (showCoercion : bool).

Let rendered (path : Path) (node : TreeNode) : Dom :=
  render place path (buildTreeDom_node node showCoercion).

Let labelOf (path : Path) (node : TreeNode) : Dom :=
  Elem (place (path ++ [0%nat])) (lit "div")
    (nodeClassList node showCoercion)
    (renderFrom place (path ++ [0%nat]) 0
       (textNodes (displayValue node showCoercion))).

Lemma rendered_is_tree_node (path : Path) (node : TreeNode) :
  hasClass (lit "tree-node") (rendered path node) = true.
Proof.
  destruct node as [nt v on ti l r]. unfold rendered.
  cbn [buildTreeDom_node]. unfold div. rewrite render_HElem.
  rewrite hasClass_Elem. cbn [existsb]. decide_classes. reflexivity.
Qed.

Lemma rendered_label (path : Path) (node : TreeNode) :
  scopeChildren (lit "tree-node-value") (rendered path node)
  = [labelOf path node].
Proof.
  destruct (label_classes node showCoercion) as (Hv & _).
  destruct node as [nt v on ti l r]. unfold rendered, labelOf.
  cbn [buildTreeDom_node]. unfold div. rewrite render_HElem.
  unfold scopeChildren. cbn [children renderFrom filter].
  rewrite !render_HElem, hasClass_Elem, Hv. f_equal.
  destruct l, r; cbn [renderFrom filter]; rewrite ?render_HElem,
    ?hasClass_Elem; cbn [existsb]; decide_classes; reflexivity.
Qed.


Ltac dom_step :=
  cbn [descendants flat_map filter renderFrom app children scopeChildren
       scopeChild hd_error getBoundingClientRect];
  rewrite ?render_HElem, ?hasClass_Elem; cbn [existsb orb];
  decide_classes; cbn [orb].


Lemma tree_lines (node : TreeNode) :
  forall path,
    flat_map (nodeLines num add sub half containerRect)
      (filter (hasClass (lit "tree-node"))
         (rendered path node :: descendants (rendered path node)))
    = treeEdges num add sub half containerRect place path node.
Proof.
  induction node as [nt v on ti l r IHl IHr] using TreeNode_induction.
  intros path.
  destruct (label_classes (mkTreeNode nt v on ti l r) showCoercion)
    as (Hv & Hn & Hc & _).
  pose proof rendered_label as Hlab.
  pose proof rendered_is_tree_node as Htn.
  assert (IH : forall n,
             (forall q,
                 flat_map (nodeLines num add sub half containerRect)
                   (filter (hasClass (lit "tree-node"))
                      (rendered q n :: descendants (rendered q n)))
                 = treeEdges num add sub half containerRect place q n) ->
             forall q,
               nodeLines num add sub half containerRect (rendered q n)
               ++ flat_map (nodeLines num add sub half containerRect)
                    (filter (hasClass (lit "tree-node"))
                       (descendants (rendered q n)))
               = treeEdges num add sub half containerRect place q n).
  { intros n H q. rewrite <- H. cbn [filter]. now rewrite Htn. }
  assert (IHmore : forall n,
             (forall q,
                 flat_map (nodeLines num add sub half containerRect)
                   (filter (hasClass (lit "tree-node"))
                      (rendered q n :: descendants (rendered q n)))
                 = treeEdges num add sub half containerRect place q n) ->
             forall q more,
               nodeLines num add sub half containerRect (rendered q n)
               ++ flat_map (nodeLines num add sub half containerRect)
                    (filter (hasClass (lit "tree-node"))
                       (descendants (rendered q n)))
               ++ more
               = treeEdges num add sub half containerRect place q n ++ more).
  { intros n H q more. now rewrite app_assoc, (IH n H). }
  unfold rendered, labelOf, scopeChildren in *.
  cbn [buildTreeDom_node]. unfold div.
  set (lcls := nodeClassList _ _) in *.
  destruct l as [a|], r as [b|]; cbn [forChild] in *;
    repeat dom_step; rewrite Hn, !filter_app, texts_unselected;
    repeat dom_step; rewrite ?Htn, ?filter_app; repeat dom_step;
    rewrite ?Htn, ?app_nil_r, ?flat_map_app; cbn [flat_map];
    rewrite ?(IHmore _ IHl), ?(IH _ IHl), ?(IH _ IHr);
    unfold nodeLines, scopeChild, scopeChildren; repeat dom_step;
    rewrite Hv, ?Hc; repeat dom_step;
    rewrite ?Htn; repeat dom_step; rewrite ?Hlab; repeat dom_step;
    cbn [treeEdges]; unfold anchorLine; rewrite <- ?app_assoc; cbn [app];
    reflexivity.
Qed.

(** Nothing below a rendered tree node is an overlay. *)
Lemma tree_no_overlay (node : TreeNode) :
  forall path,
    filter (hasClass (lit "tree-svg"))
      (rendered path node :: descendants (rendered path node)) = [].
Proof.
  induction node as [nt v on ti l r IHl IHr] using TreeNode_induction.
  intros path.
  destruct (label_classes (mkTreeNode nt v on ti l r) showCoercion)
    as (_ & _ & _ & Hs).
  assert (IH : forall n,
             (forall q,
                 filter (hasClass (lit "tree-svg"))
                   (rendered q n :: descendants (rendered q n)) = []) ->
             forall q,
               hasClass (lit "tree-svg") (rendered q n) = false
               /\ filter (hasClass (lit "tree-svg"))
                    (descendants (rendered q n)) = []).
  { intros n H q. specialize (H q). cbn [filter] in H.
    destruct (hasClass (lit "tree-svg") (rendered q n));
      [discriminate|now split]. }
  unfold rendered in *.
  cbn [buildTreeDom_node]. unfold div.
  set (lcls := nodeClassList _ _) in *.
  destruct l as [a|], r as [b|]; cbn [forChild] in *;
    repeat (progress
              (dom_step;
               rewrite ?Hs, ?app_nil_r, ?filter_app, ?texts_unselected;
               try rewrite !(proj1 (IH _ IHl _));
               try rewrite !(proj2 (IH _ IHl _));
               try rewrite !(proj1 (IH _ IHr _));
               try rewrite !(proj2 (IH _ IHr _))));
    reflexivity.
Qed.

Lemma treeEdges_length (node : TreeNode) :
  forall path,
    List.length (treeEdges num add sub half containerRect place path node)
    = edgeCount node.
Proof.
  induction node as [nt v on ti l r IHl IHr] using TreeNode_induction.
  intros path. cbn [treeEdges edgeCount].
  destruct l as [a|], r as [b|]; cbn [forChild List.length] in *;
    rewrite ?length_app, ?IHl, ?IHr; lia.
Qed.

End OneTree.

(** Induction on a rendered node, with the property known of its
    children. *)
Lemma Dom_induction (P : Dom -> Prop) :
  (forall data, P (Text data)) ->
  (forall box tag classes kids,
      Forall P kids -> P (Elem box tag classes kids)) ->
  (forall width height lines, P (Svg width height lines)) ->
  forall d, P d.
Proof.
  intros HText HElem HSvg. fix IH 1.
  intros [data|box tag classes kids|width height lines];
    [apply HText| |apply HSvg].
  apply HElem. induction kids as [|k kids IHkids]; constructor.
  - apply IH.
  - exact IHkids.
Qed.

(** [removeFirst] finds something to remove exactly when
    [querySelectorAll] finds something: the test [if (existingSvg)]. *)
Lemma removeFirst_None (class : jsstring) (d : Dom) :
  removeFirst class d = None <-> querySelectorAll class d = [].
Proof.
  unfold querySelectorAll.
  induction d as [data|box tag classes kids IH|width height lines]
    using Dom_induction; try (split; reflexivity).
  cbn [removeFirst descendants].
  induction IH as [|k kids Hk _ IHkids]; [split; reflexivity|].
  cbn [flat_map]. rewrite filter_app. cbn [filter].
  destruct (hasClass class k); [split; discriminate|].
  destruct (removeFirst class k) as [k'|].
  - split; [discriminate|]. intros H. apply app_eq_nil in H as [H _].
    apply Hk in H. discriminate.
  - destruct Hk as [Hk _]. rewrite (Hk eq_refl). cbn [app].
    rewrite <- IHkids.
    match goal with
    | |- context [option_map (cons k) ?o] => destruct o
    end; split; intros H; try discriminate; reflexivity.
Qed.

(** The lines that the pass computes for a container whose content is
    the markup of a tree. *)
Lemma computeEdges_tree (containerRect : Box) (tag : jsstring)
    (classes : list jsstring) (place : Path -> Box) (showCoercion : bool)
    (node : TreeNode) :
  computeEdges num add sub half
    (withInnerHTML containerRect tag classes place
       (buildTreeDom (Some node) showCoercion))
  = treeEdges num add sub half containerRect place [0%nat] node.
Proof.
  unfold computeEdges, withInnerHTML, querySelectorAll.
  cbn [getBoundingClientRect buildTreeDom renderFrom descendants flat_map
       app].
  rewrite app_nil_r. apply tree_lines.
Qed.

(** Such a container holds no overlay until the pass draws one. *)
Lemma tree_container_no_overlay (containerRect : Box) (tag : jsstring)
    (classes : list jsstring) (place : Path -> Box) (showCoercion : bool)
    (node : TreeNode) :
  overlays
    (withInnerHTML containerRect tag classes place
       (buildTreeDom (Some node) showCoercion)) = [].
Proof.
  unfold overlays, withInnerHTML, querySelectorAll.
  cbn [buildTreeDom renderFrom descendants flat_map app].
  rewrite app_nil_r. apply tree_no_overlay.
Qed.

Lemma drawTreeLines_tree (containerRect : Box) (tag : jsstring)
    (classes : list jsstring) (place : Path -> Box) (showCoercion : bool)
    (node : TreeNode) :
  let container :=
    withInnerHTML containerRect tag classes place
      (buildTreeDom (Some node) showCoercion) in
  drawTreeLines num add sub half container
  = Elem containerRect tag classes
      (Svg (scrollWidth containerRect) (scrollHeight containerRect)
           (treeEdges num add sub half containerRect place [0%nat] node)
       :: children container).
Proof.
  intros container.
  pose proof (tree_container_no_overlay containerRect tag classes place
                showCoercion node) as Hnone.
  apply removeFirst_None in Hnone. fold container in Hnone.
  pose proof (computeEdges_tree containerRect tag classes place
                showCoercion node) as Hlines.
  fold container in Hlines.
  unfold drawTreeLines. unfold container at 1. unfold withInnerHTML.
  fold (withInnerHTML containerRect tag classes place
          (buildTreeDom (Some node) showCoercion)).
  fold container. now rewrite Hnone, Hlines.
Qed.

Lemma hasClass_Svg (width height : num) (lines : list (Line num)) :
  hasClass (lit "tree-svg") (Svg width height lines) = true.
Proof. reflexivity. Qed.

Lemma overlays_fresh (box : Box) (tag : jsstring)
    (classes : list jsstring) (width height : num)
    (lines : list (Line num)) (kids : list Dom) :
  overlays (Elem box tag classes kids) = [] ->
  overlays (Elem box tag classes (Svg width height lines :: kids))
  = [Svg width height lines].
Proof.
  unfold overlays, querySelectorAll.
  cbn [descendants flat_map app filter]. intros Hnone.
  now rewrite hasClass_Svg, Hnone.
Qed.

(** With one overlay in front of content that holds none, the lines on
    display are those of that overlay. *)
Lemma drawnLines_fresh (box : Box) (tag : jsstring)
    (classes : list jsstring) (width height : num)
    (lines : list (Line num)) (kids : list Dom) :
  overlays (Elem box tag classes kids) = [] ->
  drawnLines (Elem box tag classes (Svg width height lines :: kids))
  = lines.
Proof.
  intros Hnone. unfold drawnLines.
  rewrite (overlays_fresh box tag classes width height lines kids Hnone).
  cbn [flat_map]. apply app_nil_r.
Qed.

(** C3. The connector pass emits one line for each pair of a node of the
    rendered tree and a child of it, from the node's label to the
    child's: the lines it computes are those of the abstract tree, as
    many as there are such pairs, and they are what the pass draws.  For
    the tree with an ASSIGN root, an ID child and an OP child with two
    NUMBER children, that is 4 lines. *)
Theorem connectors_one_per_child (containerRect : Box) (tag : jsstring)
    (classes : list jsstring) (place : Path -> Box) (showCoercion : bool)
    (node : TreeNode) :
  let container :=
    withInnerHTML containerRect tag classes place
      (buildTreeDom (Some node) showCoercion) in
  computeEdges num add sub half container
  = treeEdges num add sub half containerRect place [0%nat] node
  /\ List.length (computeEdges num add sub half container) = edgeCount node
  /\ drawnLines (drawTreeLines num add sub half container)
     = computeEdges num add sub half container
  /\ List.length
       (computeEdges num add sub half
          (withInnerHTML containerRect tag classes place
             (buildTreeDom (Some exampleTree) showCoercion))) = 4%nat.
Proof.
  intros container. unfold container.
  rewrite !computeEdges_tree, !treeEdges_length.
  split; [reflexivity|]. split; [reflexivity|]. split; [|reflexivity].
  rewrite drawTreeLines_tree. apply drawnLines_fresh.
  apply (tree_container_no_overlay containerRect tag classes place
           showCoercion node).
Qed.

(** *** Drawing again *)

Lemma removeFirst_Elem (class : jsstring) (box : Box) (tag : jsstring)
    (classes : list jsstring) (kids : list Dom) (d : Dom) :
  removeFirst class (Elem box tag classes kids) = Some d ->
  exists kids', d = Elem box tag classes kids'.
Proof.
  cbn [removeFirst].
  match goal with
  | |- option_map _ ?o = _ -> _ => destruct o as [kids'|]
  end; cbn [option_map]; intros H; [|discriminate].
  injection H as <-. now exists kids'.
Qed.

(** An overlay in front is the one that the next pass removes. *)
Lemma removeFirst_front_overlay (box : Box) (tag : jsstring)
    (classes : list jsstring) (width height : num)
    (lines : list (Line num)) (kids : list Dom) :
  removeFirst (lit "tree-svg")
    (Elem box tag classes (Svg width height lines :: kids))
  = Some (Elem box tag classes kids).
Proof. cbn [removeFirst]. now rewrite hasClass_Svg. Qed.

(** The pass puts one overlay in front of what is left of the content
    once an earlier overlay is taken out. *)
Lemma drawTreeLines_Elem (box : Box) (tag : jsstring)
    (classes : list jsstring) (kids : list Dom) :
  exists kids',
    drawTreeLines num add sub half (Elem box tag classes kids)
    = Elem box tag classes
        (Svg (scrollWidth box) (scrollHeight box)
             (computeEdges num add sub half (Elem box tag classes kids'))
         :: kids').
Proof.
  unfold drawTreeLines.
  destruct (removeFirst (lit "tree-svg") (Elem box tag classes kids))
    as [without|] eqn:Hremoved.
  - apply removeFirst_Elem in Hremoved as [kids' ->]. now exists kids'.
  - now exists kids.
Qed.

Lemma drawTreeLines_twice (container : Dom) :
  drawTreeLines num add sub half (drawTreeLines num add sub half container)
  = drawTreeLines num add sub half container.
Proof.
  destruct container as [data|box tag classes kids|width height lines];
    try reflexivity.
  destruct (drawTreeLines_Elem box tag classes kids) as [kids' ->].
  unfold drawTreeLines at 1.
  rewrite removeFirst_front_overlay. reflexivity.
Qed.

(** C8. Drawing the connectors again on an unchanged rendered tree
    changes nothing: a second pass, and any number of further passes,
    leave the container as the first pass left it, with the same lines;
    and on a container that holds the markup of a tree the passes leave
    one overlay, the earlier one replaced, whose lines are the edges of
    the tree. *)
Theorem drawTreeLines_idempotent (container : Dom) (again : nat)
    (containerRect : Box) (tag : jsstring) (classes : list jsstring)
    (place : Path -> Box) (showCoercion : bool) (node : TreeNode) :
  let draw := drawTreeLines num add sub half in
  let treeContainer :=
    withInnerHTML containerRect tag classes place
      (buildTreeDom (Some node) showCoercion) in
  draw (draw container) = draw container
  /\ Nat.iter (S again) draw container = draw container
  /\ drawnLines (Nat.iter (S again) draw container)
     = drawnLines (draw container)
  /\ overlays (Nat.iter (S again) draw treeContainer)
     = [Svg (scrollWidth containerRect) (scrollHeight containerRect)
            (treeEdges num add sub half containerRect place [0%nat] node)].
Proof.
  intros draw treeContainer.
  assert (Hiter : forall c, Nat.iter (S again) draw c = draw c).
  { intros c. induction again as [|k IH]; [reflexivity|].
    change (Nat.iter (S (S k)) draw c) with (draw (Nat.iter (S k) draw c)).
    rewrite IH. apply drawTreeLines_twice. }
  split; [apply drawTreeLines_twice|].
  split; [apply Hiter|]. split; [now rewrite Hiter|].
  rewrite Hiter. unfold draw, treeContainer. rewrite drawTreeLines_tree.
  apply overlays_fresh.
  apply (tree_container_no_overlay containerRect tag classes place
           showCoercion node).
Qed.

End RenderedFacts.

(** ** The type table *)

Lemma keys_setProperty (o : JsObject) (k : jsstring) (v : JsValue)
    (x : jsstring) :
  In x (map fst (setProperty o k v)) <-> In x (map fst o) \/ x = k.
Proof.
  induction o as [|[k' v'] o IH]; cbn [setProperty map fst In].
  - intuition.
  - destruct (strictEq k' k) eqn:E; cbn [map fst In].
    + apply strictEq_true_iff in E. subst k'. intuition.
    + rewrite IH. intuition.
Qed.

Lemma values_setProperty (P : JsValue -> Prop) (o : JsObject)
    (k : jsstring) (v : JsValue) :
  P v -> Forall (fun kv => P (snd kv)) o ->
  Forall (fun kv => P (snd kv)) (setProperty o k v).
Proof.
  intros Hv Ho. induction Ho as [|[k' v'] o Hkv Ho IH];
    cbn [setProperty]; [now constructor|].
  destruct (strictEq k' k); constructor; auto.
Qed.

Section TypeTable.

Variable p : Page.

Let collect (typeTable : JsObject) (varName : jsstring) : JsObject :=
  match getElementById p (lit "type-" ++ varName) with
  | Some select => setProperty typeTable varName (elementValue select)
  | None => typeTable
  end.

Lemma keys_collect (names : list jsstring) (typeTable : JsObject)
    (x : jsstring) :
  In x (map fst (fold_left collect names typeTable))
  <-> In x (map fst typeTable)
      \/ (In x names /\ getElementById p (lit "type-" ++ x) <> None).
Proof.
  revert typeTable.
  induction names as [|n names IH]; intros typeTable; cbn [fold_left In].
  - intuition.
  - rewrite IH. unfold collect.
    destruct (getElementById p (lit "type-" ++ n)) as [e|] eqn:E.
    + rewrite keys_setProperty. split.
      * intros [[H| ->]|[H1 H2]]; auto. right. split; auto. congruence.
      * intros [H|[[->|H1] H2]]; auto.
    + split.
      * intros [H|[H1 H2]]; auto.
      * intros [H|[[->|H1] H2]]; auto. congruence.
Qed.

(** The names of the table that [getTypeTable] returns are the names of
    the stored symbol table for which the document has an element with
    the id [type-] and the name. *)
Lemma getTypeTable_keys (x : jsstring) :
  In x (map fst (getTypeTable p))
  <-> In x (keys (currentSymbolTable p))
      /\ getElementById p (lit "type-" ++ x) <> None.
Proof.
  change (getTypeTable p)
    with (fold_left collect (keys (currentSymbolTable p)) []).
  rewrite keys_collect.
  cbn [map In]. intuition.
Qed.

Lemma values_collect (P : JsValue -> Prop) (names : list jsstring) :
  (forall n e, In n names ->
               getElementById p (lit "type-" ++ n) = Some e ->
               P (elementValue e)) ->
  forall typeTable,
    Forall (fun kv => P (snd kv)) typeTable ->
    Forall (fun kv => P (snd kv)) (fold_left collect names typeTable).
Proof.
  induction names as [|n names IH]; intros Hsel typeTable Ht;
    cbn [fold_left]; [exact Ht|].
  apply IH; [intros m e Hm; apply Hsel; now right|].
  unfold collect.
  destruct (getElementById p (lit "type-" ++ n)) as [e|] eqn:E;
    [|exact Ht].
  apply values_setProperty; [|exact Ht]. apply (Hsel n e); [now left|exact E].
Qed.

(** When every element found for a name of the symbol table is one of
    the selectors, every value of the table is [int] or [float]. *)
Lemma getTypeTable_values :
  (forall n e, In n (keys (currentSymbolTable p)) ->
               getElementById p (lit "type-" ++ n) = Some e ->
               exists s, e = SelectElement s) ->
  Forall (fun kv => typeValue (snd kv)) (getTypeTable p).
Proof.
  intros Hsel.
  change (getTypeTable p)
    with (fold_left collect (keys (currentSymbolTable p)) []).
  apply values_collect; [|constructor].
  intros n e Hn He. destruct (Hsel n e Hn He) as [s ->].
  unfold typeValue. cbn [elementValue].
  destruct (selected s); [now left|now right].
Qed.

End TypeTable.

(** The usual course: [x = a + b] is analysed, the user sets [b] to
    [float], and the table has [a] and [b] with the options selected. *)
Example getTypeTable_example :
  getTypeTable
    (chooseOption (lit "type-b") TFloat
       (analysed (lit "x = a + b")
          [(lit "x", lit "0"); (lit "a", lit "1"); (lit "b", lit "2")]
          loadedPage))
  = [(lit "a", Str (lit "int")); (lit "b", Str (lit "float"))].
Proof. vm_compute. reflexivity. Qed.

(** Selectors left over: after [x = a + b], the source [a = 5] needs no
    input, the prompt is hidden and not emptied, and the table takes the
    value of the selector that is still there for [a]. *)
Example getTypeTable_leftover :
  let p := analysed (lit "a = 5") [(lit "a", lit "0")]
             (analysed (lit "x = a + b")
                [(lit "x", lit "0"); (lit "a", lit "1"); (lit "b", lit "2")]
                loadedPage) in
  typeTableSection_display p = lit "none"
  /\ typeInputs_content p
     = [typeSelectFor (lit "a"); typeSelectFor (lit "b")]
  /\ getTypeTable p = [(lit "a", Str (lit "int"))].
Proof. vm_compute. repeat split; reflexivity. Qed.

(** C7. A symbol table may name a variable [inputs].  With the source
    [inputs = a + 1] analysed, the prompt holds one selector, for [a],
    and none for the assigned variable [inputs]; yet the table of
    [getTypeTable] has an entry for [inputs], and its value is
    [undefined]: the element found under the id [type-inputs] is the
    container of the prompt. *)
Theorem getTypeTable_assigned_inputs :
  let p := analysed (lit "inputs = a + 1")
             [(lit "inputs", lit "0"); (lit "a", lit "1")] loadedPage in
  typeInputs_content p = [typeSelectFor (lit "a")]
  /\ getElementById p (lit "type-inputs") = Some typeInputsElement
  /\ getTypeTable p = [(lit "inputs", Undefined); (lit "a", Str (lit "int"))]
  /\ ~ Forall (fun kv => typeValue (snd kv)) (getTypeTable p).
Proof.
  intros p.
  assert (Ht : getTypeTable p
               = [(lit "inputs", Undefined); (lit "a", Str (lit "int"))])
    by (vm_compute; reflexivity).
  split; [vm_compute; reflexivity|].
  split; [vm_compute; reflexivity|].
  split; [exact Ht|].
  rewrite Ht. intros H. inversion H as [|kv l Hkv Hl]; subst.
  destruct Hkv as [Hkv|Hkv]; discriminate.
Qed.

(** C10. With the source [y = inputs + 1] analysed, the selector of
    [inputs] is in the prompt and set to [int]; the names of the table of
    [getTypeTable] are names of the stored symbol table, but the value
    under [inputs] is [undefined], not [int] or [float], and the request
    that [compile] sends has an empty type table. *)
Theorem getTypeTable_inputs_undefined :
  let p := analysed (lit "y = inputs + 1")
             [(lit "y", lit "0"); (lit "inputs", lit "1")] loadedPage in
  typeInputs_content p = [typeSelectFor (lit "inputs")]
  /\ incl (map fst (getTypeTable p)) (keys (currentSymbolTable p))
  /\ getTypeTable p = [(lit "inputs", Undefined)]
  /\ ~ Forall (fun kv => typeValue (snd kv)) (getTypeTable p)
  /\ snd (compile p (Thrown [])) = [PostCompile (lit "y = inputs + 1") []].
Proof.
  intros p.
  assert (Ht : getTypeTable p = [(lit "inputs", Undefined)])
    by (vm_compute; reflexivity).
  split; [vm_compute; reflexivity|].
  split; [intros x Hx; now apply getTypeTable_keys in Hx|].
  split; [exact Ht|].
  split; [|vm_compute; reflexivity].
  rewrite Ht. intros H. inversion H as [|kv l Hkv Hl]; subst.
  destruct Hkv as [Hkv|Hkv]; discriminate.
Qed.

(** ** The handlers *)

(** [clearOutputs] leaves the seven placeholders. *)
Lemma clearOutputs_outputs (p : Page) :
  outputs (clearOutputs p) = placeholders.
Proof. reflexivity. Qed.

(** [compile] sends its request whatever the page holds. *)
Lemma compile_sends (p : Page) (reply : Reply CompileData) :
  snd (compile p reply)
  = [PostCompile (trim (codeInput_value p))
       (stringifiable (getTypeTable p))].
Proof. unfold compile. destruct reply; reflexivity. Qed.

(** C1, as the script has it.  [compile] does not look at the pipeline
    state: every call, in [Idle] too, sends one request to the
    compilation service, with the trimmed source and the collected type
    table.  What keeps a compilation from [Idle] is the compile button:
    [reset] disables it, only an analysis that succeeds enables it, and
    a click on it after a reset calls nothing and sends nothing. *)
Theorem compile_sends_in_every_state (c : Controller)
    (reply : Reply CompileData) (analysis : Reply LexicalData) :
  snd (runCompile c reply)
  = [PostCompile (trim (codeInput_value (page c)))
       (stringifiable (getTypeTable (page c)))]
  /\ compileBtn_disabled (page (runReset c)) = true
  /\ clickCompile (runReset c) reply = (runReset c, [])
  /\ compileBtn_disabled (page (fst (runAnalyze c analysis)))
     = (if analyzeFails (page c) analysis
        then compileBtn_disabled (page c) else false)
  /\ compileBtn_disabled (page (fst (runCompile c reply)))
     = compileBtn_disabled (page c).
Proof.
  split.
  { unfold runCompile. rewrite <- (compile_sends (page c) reply).
    now destruct (compile (page c) reply). }
  split; [reflexivity|]. split; [reflexivity|]. split.
  - unfold runAnalyze, analyzeFails, analyzeLexical.
    destruct (truthy (trim (codeInput_value (page c)))); cbn [negb orb];
      [|reflexivity].
    destruct analysis; reflexivity.
  - unfold runCompile, compile. destruct reply; reflexivity.
Qed.

(** C1, refuted as stated: in [Idle], right after the script has started
    on the loaded page, and again after a reset, a call of [compile]
    sends a request to the compilation service. *)
Lemma compile_in_Idle_sends :
  phase (startup loadedPage) = Idle
  /\ snd (runCompile (startup loadedPage) (Thrown []))
     = [PostCompile [] []]
  /\ phase (runReset (startup loadedPage)) = Idle
  /\ snd (runCompile (runReset (startup loadedPage)) (Thrown [])) <> [].
Proof.
  split; [reflexivity|]. split; [vm_compute; reflexivity|].
  split; [reflexivity|]. vm_compute. discriminate.
Qed.

(** C2, refuted as stated: an analysis that the service refuses, run on a
    page that shows the tokens and the symbol table of an earlier
    analysis, fails and leaves the placeholders in their place. *)
Lemma failed_analyze_clears_outputs :
  let c' := fst (runAnalyze analysedExample (Refused None None)) in
  analyzeFails (page analysedExample) (Refused None None) = true
  /\ tokensOutput_innerHTML (outputs (page analysedExample))
     <> tokensOutput_innerHTML placeholders
  /\ outputs (page c') = placeholders
  /\ outputs (page c') <> outputs (page analysedExample).
Proof.
  split; [vm_compute; reflexivity|].
  split; [vm_compute; discriminate|].
  split; [vm_compute; reflexivity|].
  vm_compute. discriminate.
Qed.

(** C2, as the script has it.  An analysis that fails leaves the
    pipeline state, the stored symbol table, the compile button, the
    source and the type prompt as they were.  When it fails on an empty
    source, it sends nothing and leaves every displayed artifact
    untouched; when the service refuses or the request throws, the
    request was sent and the displayed artifacts are the placeholders,
    written before the request.  In each case the error is shown. *)
Theorem failed_analyze_keeps_state (c : Controller)
    (reply : Reply LexicalData) :
  analyzeFails (page c) reply = true ->
  let c' := fst (runAnalyze c reply) in
  let sent := snd (runAnalyze c reply) in
  let code := trim (codeInput_value (page c)) in
  phase c' = phase c
  /\ currentSymbolTable (page c') = currentSymbolTable (page c)
  /\ compileBtn_disabled (page c') = compileBtn_disabled (page c)
  /\ codeInput_value (page c') = codeInput_value (page c)
  /\ typeInputs_content (page c') = typeInputs_content (page c)
  /\ typeTableSection_display (page c')
     = typeTableSection_display (page c)
  /\ getTypeTable (page c') = getTypeTable (page c)
  /\ errorDisplay_display (errorDisplay (page c')) = lit "block"
  /\ sent = (if truthy code then [PostLexical code] else [])
  /\ outputs (page c')
     = (if truthy code then placeholders else outputs (page c)).
Proof.
  intros Hfails c' sent code.
  unfold c', sent, runAnalyze, analyzeLexical. rewrite Hfails.
  unfold analyzeFails in Hfails. fold code in Hfails |- *.
  destruct (truthy code); cbn [negb orb] in *.
  - destruct reply as [message|detail error|data]; [| |discriminate];
      cbn [fst snd phase page];
      repeat split; reflexivity.
  - cbn [fst snd phase page]. repeat split; reflexivity.
Qed.

(** The theorem at the refused analysis of the example: the artifacts
    are the placeholders and the stored symbol table is kept. *)
Lemma failed_analyze_keeps_state_witness :
  analyzeFails (page analysedExample) (Refused None None) = true
  /\ outputs (page (fst (runAnalyze analysedExample (Refused None None))))
     = placeholders
  /\ currentSymbolTable
       (page (fst (runAnalyze analysedExample (Refused None None))))
     = currentSymbolTable (page analysedExample).
Proof.
  pose proof (failed_analyze_keeps_state analysedExample (Refused None None)
                eq_refl) as H.
  cbv zeta in H.
  destruct H as (_ & Htable & _ & _ & _ & _ & _ & _ & _ & Hout).
  split; [reflexivity|]. split; [exact Hout|exact Htable].
Defined.

(** C9. From every state, [reset] returns to [Idle]: the source is
    empty, the stored symbol table is empty, the type prompt is hidden
    and holds no selector, so that the type table collected is empty,
    every displayed artifact is its placeholder, the error is hidden, and
    the compile button is disabled: a click on it does nothing. *)
Theorem reset_returns_to_Idle (c : Controller) (reply : Reply CompileData) :
  let c' := runReset c in
  phase c' = Idle
  /\ codeInput_value (page c') = []
  /\ currentSymbolTable (page c') = []
  /\ typeInputs_content (page c') = []
  /\ typeTableSection_display (page c') = lit "none"
  /\ getTypeTable (page c') = []
  /\ outputs (page c') = placeholders
  /\ errorDisplay_display (errorDisplay (page c')) = lit "none"
  /\ compileBtn_disabled (page c') = true
  /\ clickCompile c' reply = (c', []).
Proof. repeat split; reflexivity. Qed.

(* ================================================================= *)
(** * Further properties of the script *)
(* ================================================================= *)

(** ** Validation and the requests of [analyzeLexical] *)

Lemma trimEnd_nil_iff (s : jsstring) :
  trimEnd s = [] <-> forallb isWhiteSpace s = true.
Proof.
  induction s as [|c r IH]; [split; reflexivity|].
  rewrite trimEnd_cons. cbn [forallb]. rewrite andb_true_iff, <- IH.
  destruct (trimEnd r) as [|d t]; destruct (isWhiteSpace c);
    split; try discriminate; try reflexivity; intuition discriminate.
Qed.

Lemma trimStart_nil_iff (s : jsstring) :
  trimStart s = [] <-> forallb isWhiteSpace s = true.
Proof.
  induction s as [|c r IH]; [split; reflexivity|].
  cbn [trimStart forallb].
  destruct (isWhiteSpace c) eqn:Hc; cbn [andb]; [exact IH|].
  split; discriminate.
Qed.

Lemma forallb_trimStart (s : jsstring) :
  forallb isWhiteSpace (trimStart s) = true ->
  forallb isWhiteSpace s = true.
Proof.
  induction s as [|c r IH]; [reflexivity|].
  cbn [trimStart]. destruct (isWhiteSpace c) eqn:Hc.
  - intros H. cbn [forallb]. now rewrite Hc, IH.
  - cbn [forallb]. now rewrite Hc.
Qed.

(** The trimmed source is empty exactly for a source of white space. *)
Lemma trim_empty_iff (s : jsstring) :
  truthy (trim s) = false <-> forallb isWhiteSpace s = true.
Proof.
  unfold trim. split.
  - intros H. apply forallb_trimStart, trimEnd_nil_iff.
    now destruct (trimEnd (trimStart s)).
  - intros H. apply trimStart_nil_iff in H. now rewrite H.
Qed.

(** X1. [analyzeLexical] on a source that is empty or all white space
    sends no request and only shows the validation message, whatever the
    page holds; on every other source it sends one request, which
    carries the trimmed source. *)
Theorem analyze_validates_source (p : Page) (reply : Reply LexicalData) :
  if forallb isWhiteSpace (codeInput_value p)
  then analyzeLexical p reply
       = (showError (lit "Please enter some code to analyze.") p, [])
  else snd (analyzeLexical p reply)
       = [PostLexical (trim (codeInput_value p))]
       /\ trim (codeInput_value p) <> [].
Proof.
  pose proof (trim_empty_iff (codeInput_value p)) as Hw.
  unfold analyzeLexical.
  destruct (forallb isWhiteSpace (codeInput_value p)).
  - destruct Hw as [_ Hw]. now rewrite (Hw eq_refl).
  - destruct (truthy (trim (codeInput_value p))) eqn:Ht; cbn [negb].
    + split; [now destruct reply|]. intros E. now rewrite E in Ht.
    + destruct Hw as [Hw _]. discriminate (Hw eq_refl).
Qed.

(** ** What the handlers show and keep *)

(** X2. An analysis that succeeds shows what its reply holds, whatever
    was shown before: the tokens and the symbol table of the reply, and
    the placeholders for the two trees and the three listings.  It
    stores the symbol table, enables the compile button, hides the
    error, keeps the source, and sets up the type prompt: hidden and left
    as it was when no input is required, else shown with one default
    selector for each required input. *)
Theorem analyze_success_shows_reply (p : Page) (data : LexicalData) :
  truthy (trim (codeInput_value p)) = true ->
  let p' := fst (analyzeLexical p (Succeeded data)) in
  let required := inputVariables (symbol_table data) (codeInput_value p) in
  outputs p' = analysedOutputs data
  /\ syntaxTree_innerHTML (outputs p') = syntaxTree_innerHTML placeholders
  /\ semanticTree_innerHTML (outputs p')
     = semanticTree_innerHTML placeholders
  /\ icgOutput_textContent (outputs p') = icgOutput_textContent placeholders
  /\ optimizedOutput_textContent (outputs p')
     = optimizedOutput_textContent placeholders
  /\ assemblyOutput_textContent (outputs p')
     = assemblyOutput_textContent placeholders
  /\ currentSymbolTable p' = symbol_table data
  /\ compileBtn_disabled p' = false
  /\ codeInput_value p' = codeInput_value p
  /\ errorDisplay_display (errorDisplay p') = lit "none"
  /\ typeInputs_content p'
     = match required with
       | [] => typeInputs_content p
       | _ :: _ => map typeSelectFor required
       end
  /\ typeTableSection_display p'
     = match required with [] => lit "none" | _ :: _ => lit "block" end.
Proof.
  intros Hcode p' required. unfold p', analyzeLexical, showTypeInputs.
  rewrite Hcode. cbn [negb fst codeInput_value set_compileBtn_disabled
                      set_currentSymbolTable displaySymbolTable
                      displayTokens clearOutputs hideError set_outputs
                      set_errorDisplay].
  fold required.
  destruct required as [|v rest]; cbn [List.length Nat.eqb];
    repeat split; reflexivity.
Qed.

(** The theorem at the source [x = a + b] typed into the loaded page. *)
Lemma analyze_success_shows_reply_witness :
  truthy (trim (codeInput_value (typeCode (lit "x = a + b") loadedPage)))
  = true
  /\ compileBtn_disabled
       (fst (analyzeLexical (typeCode (lit "x = a + b") loadedPage)
               (Succeeded {| tokens := [];
                             symbol_table := [(lit "x", lit "0")] |})))
     = false.
Proof.
  split; [reflexivity|].
  pose proof (analyze_success_shows_reply
                (typeCode (lit "x = a + b") loadedPage)
                {| tokens := []; symbol_table := [(lit "x", lit "0")] |}
                eq_refl) as H.
  cbv zeta in H. exact (proj1 (proj2 (proj2 (proj2 (proj2 (proj2 (proj2
                          (proj2 H)))))))).
Defined.

(** X3. A compilation that fails, by a refusal of the service or by a
    thrown error, changes nothing but the error display: every displayed
    artifact, the stored symbol table, the source, the type prompt with
    its selections and the compile button are as before, and the error
    is shown. *)
Theorem compile_failure_keeps_page (p : Page) (reply : Reply CompileData) :
  failed reply = true ->
  let p' := fst (compile p reply) in
  outputs p' = outputs p
  /\ currentSymbolTable p' = currentSymbolTable p
  /\ codeInput_value p' = codeInput_value p
  /\ typeInputs_content p' = typeInputs_content p
  /\ typeTableSection_display p' = typeTableSection_display p
  /\ compileBtn_disabled p' = compileBtn_disabled p
  /\ getTypeTable p' = getTypeTable p
  /\ errorDisplay_display (errorDisplay p') = lit "block".
Proof.
  intros Hfailed p'. unfold p', compile.
  destruct reply as [message|detail error|data]; [| |discriminate];
    repeat split; reflexivity.
Qed.

(** The theorem at a thrown error on the page of the analysed example. *)
Lemma compile_failure_keeps_page_witness :
  failed (Thrown (A := CompileData) (lit "Failed to fetch")) = true
  /\ outputs (fst (compile (page analysedExample)
                     (Thrown (lit "Failed to fetch"))))
     = outputs (page analysedExample).
Proof.
  split; [reflexivity|].
  exact (proj1 (compile_failure_keeps_page (page analysedExample)
                  (Thrown (lit "Failed to fetch")) eq_refl)).
Defined.

(** X4. A compilation that succeeds replaces all seven displayed
    artifacts by those of its reply, whatever was shown before, and
    hides the error.  It does not store the symbol table of the reply:
    the stored one, the type prompt, the source and the compile button
    stay as they were, so the next type table is collected as before. *)
Theorem compile_success_replaces_outputs (p : Page) (data : CompileData) :
  let p' := fst (compile p (Succeeded data)) in
  outputs p' = compiledOutputs data
  /\ currentSymbolTable p' = currentSymbolTable p
  /\ codeInput_value p' = codeInput_value p
  /\ typeInputs_content p' = typeInputs_content p
  /\ typeTableSection_display p' = typeTableSection_display p
  /\ compileBtn_disabled p' = compileBtn_disabled p
  /\ getTypeTable p' = getTypeTable p
  /\ errorDisplay_display (errorDisplay p') = lit "none".
Proof. repeat split; reflexivity. Qed.

(** X5. The message of a refusal is never empty when the fallback is
    not: it is [detail] when that is a non-empty string, else [error]
    when that is one, else the fallback. *)
Theorem errorMessage_nonempty (detail error : option jsstring)
    (fallback : jsstring) :
  fallback <> [] ->
  errorMessage detail error fallback <> []
  /\ (truthy (errorMessage detail error (lit "Analysis failed")) = true)
  /\ (truthy (errorMessage detail error (lit "Compilation failed")) = true)
  /\ errorMessage detail error fallback
     = match detail, error with
       | Some (c :: d), _ => c :: d
       | _, Some (c :: e) => c :: e
       | _, _ => fallback
       end.
Proof.
  intros Hne. unfold errorMessage.
  destruct detail as [[|c d]|], error as [[|c' e]|]; cbn [truthy];
    repeat split; try reflexivity; try exact Hne; discriminate.
Qed.

(** The theorem at a reply with an empty [detail] and an [error]. *)
Lemma errorMessage_nonempty_witness :
  lit "Analysis failed" <> []
  /\ errorMessage (Some []) (Some (lit "bad token")) (lit "Analysis failed")
     <> [].
Proof.
  split; [discriminate|].
  refine (proj1 (errorMessage_nonempty (Some []) (Some (lit "bad token"))
                   (lit "Analysis failed") _)).
  discriminate.
Defined.

(** X6. After a handler has run, the error is on display exactly when
    the handler failed, whatever was displayed before: [analyzeLexical]
    shows it on an empty source, a refusal and a thrown error, and hides
    it on success; [compile] shows it on a refusal and a thrown error,
    and hides it on success.  A thrown error is reported with the fixed
    prefix before its own message. *)
Theorem error_shown_iff_failure (p : Page) (analysis : Reply LexicalData)
    (compilation : Reply CompileData) (message : jsstring) :
  errorDisplay_display (errorDisplay (fst (analyzeLexical p analysis)))
  = (if analyzeFails p analysis then lit "block" else lit "none")
  /\ errorDisplay_display (errorDisplay (fst (compile p compilation)))
     = (if failed compilation then lit "block" else lit "none")
  /\ errorDisplay_textContent
       (errorDisplay (fst (compile p (Thrown message))))
     = [10060] ++ lit " Error: " ++ lit "Error connecting to API: "
         ++ message
  /\ (if truthy (trim (codeInput_value p))
      then errorDisplay_textContent
             (errorDisplay (fst (analyzeLexical p (Thrown message))))
           = [10060] ++ lit " Error: " ++ lit "Error connecting to API: "
               ++ message
      else errorDisplay_textContent
             (errorDisplay (fst (analyzeLexical p (Thrown message))))
           = [10060] ++ lit " Error: "
               ++ lit "Please enter some code to analyze.").
Proof.
  unfold analyzeFails, analyzeLexical, compile.
  split; [|split; [|split]].
  - destruct (truthy (trim (codeInput_value p))); cbn [negb orb];
      [|reflexivity].
    destruct analysis as [thrown|detail error|data]; try reflexivity.
    unfold showTypeInputs.
    now destruct (List.length
                    (inputVariables (symbol_table data)
                       (codeInput_value
                          (set_currentSymbolTable (symbol_table data)
                             (displaySymbolTable (symbol_table data)
                                (displayTokens (tokens data)
                                   (clearOutputs (hideError p)))))))
                  =? 0)%nat.
  - destruct compilation; reflexivity.
  - reflexivity.
  - destruct (truthy (trim (codeInput_value p))); reflexivity.
Qed.

(** ** The page while the pipeline is idle *)






(** X8. [reset] is idempotent, and it leaves a page on which the next
    analysis fails validation: it sends no request and only shows the
    validation message. *)
Theorem reset_twice_and_analyze (p : Page) (reply : Reply LexicalData) :
  reset (reset p) = reset p
  /\ analyzeLexical (reset p) reply
     = (showError (lit "Please enter some code to analyze.") (reset p), [])
  /\ getTypeTable (reset p) = [].
Proof. repeat split; reflexivity. Qed.

(** ** The type table, entry by entry *)


Lemma find_app_first {A : Type} (f : A -> bool) (l m : list A) :
  find f (l ++ m)
  = match find f l with Some x => Some x | None => find f m end.
Proof.
  induction l as [|x l IH]; cbn [app find]; [reflexivity|].
  now destruct (f x).
Qed.

Lemma find_none_all {A : Type} (f : A -> bool) (l : list A) :
  (forall x, In x l -> f x = false) -> find f l = None.
Proof.
  induction l as [|x l IH]; intros H; cbn [find]; [reflexivity|].
  rewrite (H x (or_introl eq_refl)). apply IH. intros y Hy. apply H.
  now right.
Qed.



Lemma typeId_differs (k k' : jsstring) :
  k <> k' -> strictEq (lit "type-" ++ k) (lit "type-" ++ k') = false.
Proof.
  intros Hne. apply strictEq_false_iff. intros E. apply Hne.
  exact (app_inv_head _ _ _ E).
Qed.

Section Collected.

Variable p : Page.

Let collect (typeTable : JsObject) (varName : jsstring) : JsObject :=
  match getElementById p (lit "type-" ++ varName) with
  | Some select => setProperty typeTable varName (elementValue select)
  | None => typeTable
  end.






End Collected.


(** ** Selectors found by their id *)

Lemma find_map_select (f : Element -> bool) (l : list TypeSelect) :
  find f (map SelectElement l)
  = option_map SelectElement (find (fun s => f (SelectElement s)) l).
Proof.
  induction l as [|s l IH]; cbn [map find option_map]; [reflexivity|].
  now destruct (f (SelectElement s)).
Qed.

(** Where no other element of the page has the id, the element found
    for [type-] and a name other than [inputs] is the first selector of
    the prompt with that id. *)
Lemma getElementById_selector (p : Page) (k : jsstring) :
  k <> lit "inputs" ->
  (forall e, In e (elementsBefore p ++ elementsAfter p) ->
             elementId e <> lit "type-" ++ k) ->
  getElementById p (lit "type-" ++ k)
  = option_map SelectElement
      (find (fun s => strictEq (select_id s) (lit "type-" ++ k))
         (typeInputs_content p)).
Proof.
  intros Hk Hfree. unfold getElementById, elementsWithId.
  rewrite find_app_first, find_none_all.
  2:{ intros e He. apply strictEq_false_iff, Hfree, in_or_app. now left. }
  cbn [find typeInputsElement elementId].
  change (lit "type-inputs") with (lit "type-" ++ lit "inputs").
  rewrite typeId_differs by congruence.
  rewrite find_app_first, find_map_select. cbn [elementId].
  destruct (find (fun s => strictEq (select_id s) (lit "type-" ++ k))
              (typeInputs_content p)); [reflexivity|].
  cbn [option_map]. apply find_none_all.
  intros e He. apply strictEq_false_iff, Hfree, in_or_app. now right.
Qed.











(** ** More on the rendered tree *)

Lemma edgeCount_nodeCount (node : TreeNode) :
  S (edgeCount node) = nodeCount node.
Proof.
  induction node as [nt v on ti l r IHl IHr] using TreeNode_induction.
  cbn [edgeCount nodeCount].
  destruct l as [a|], r as [b|]; cbn [forChild] in *; lia.
Qed.

Section RenderedCounts.

Variable num : Type.
Variables (add sub : num -> num -> num) (half : num -> num).
Variables (place : Path -> Box num) (showCoercion : bool).

Ltac decide_class_names :=
  repeat match goal with
         | |- context [strictEq (lit ?a) (lit ?b)] =>
             let v := eval vm_compute in (strictEq (lit a) (lit b)) in
             change (strictEq (lit a) (lit b)) with v
         end.

Ltac count_step :=
  cbn [descendants flat_map filter renderFrom app children];
  rewrite ?render_HElem, ?hasClass_Elem; cbn [existsb orb];
  decide_class_names; cbn [orb].

(** The [.tree-node] elements of a rendered node are as many as the
    nodes of the tree. *)
Lemma tree_node_elements (node : TreeNode) :
  forall path,
    List.length
      (filter (hasClass (lit "tree-node"))
         (render place path (buildTreeDom_node node showCoercion)
          :: descendants
               (render place path (buildTreeDom_node node showCoercion))))
    = nodeCount node.
Proof.
  induction node as [nt v on ti l r IHl IHr] using TreeNode_induction.
  intros path.
  destruct (label_classes (mkTreeNode nt v on ti l r) showCoercion)
    as (_ & Hn & _ & _).
  pose proof (rendered_is_tree_node num place showCoercion) as Htn.
  assert (IH : forall n,
             (forall q,
                 List.length
                   (filter (hasClass (lit "tree-node"))
                      (render place q (buildTreeDom_node n showCoercion)
                       :: descendants
                            (render place q
                               (buildTreeDom_node n showCoercion))))
                 = nodeCount n) ->
             forall q,
               S (List.length
                    (filter (hasClass (lit "tree-node"))
                       (descendants
                          (render place q
                             (buildTreeDom_node n showCoercion)))))
               = nodeCount n).
  { intros n H q. rewrite <- (H q). cbn [filter]. now rewrite Htn. }
  cbn [buildTreeDom_node nodeCount]. unfold div.
  set (lcls := nodeClassList _ _) in *.
  destruct l as [a|], r as [b|]; cbn [forChild] in *;
    repeat count_step; rewrite Hn, !filter_app, texts_unselected;
    repeat count_step; rewrite ?Htn, ?filter_app; repeat count_step;
    rewrite ?Htn, ?app_nil_r; cbn [List.length];
    rewrite ?length_app; cbn [List.length];
    repeat match goal with
           | H : forall q : Path, _ = nodeCount ?n
             |- context [descendants
                           (render place ?q (buildTreeDom_node ?n _))] =>
               pose proof (IH n H q); clear H
           end;
    lia.
Qed.

(** X12. In a container that holds the markup of a tree, the
    [.tree-node] elements are as many as the nodes of the tree, and the
    connector pass computes one line fewer: every node but the root is
    reached by one line.  A tree of a single node gets none. *)
Theorem connectors_one_fewer_than_nodes (containerRect : Box num)
    (tag : jsstring) (classes : list jsstring) (node : TreeNode) :
  let container :=
    withInnerHTML containerRect tag classes place
      (buildTreeDom (Some node) showCoercion) in
  List.length (querySelectorAll (lit "tree-node") container)
  = nodeCount node
  /\ S (List.length (computeEdges num add sub half container))
     = nodeCount node
  /\ (node_left node = None /\ node_right node = None <->
      computeEdges num add sub half container = []).
Proof.
  intros container.
  assert (Hlines : List.length (computeEdges num add sub half container)
                   = edgeCount node).
  { unfold container. rewrite computeEdges_tree. apply treeEdges_length. }
  split; [|split].
  - unfold container, withInnerHTML, querySelectorAll.
    cbn [buildTreeDom renderFrom descendants flat_map app].
    rewrite app_nil_r. apply tree_node_elements.
  - rewrite Hlines. apply edgeCount_nodeCount.
  - rewrite <- length_zero_iff_nil, Hlines.
    destruct node as [nt v on ti [a|] [b|]];
      cbn [node_left node_right edgeCount]; split; intros H;
      try (destruct H; discriminate); try discriminate; try lia; auto.
Qed.

End RenderedCounts.

Section FreshContainer.

Variable num : Type.
Variables (add sub : num -> num -> num) (half : num -> num).

(** X13. On a container that holds no overlay, the pass leaves the
    content in place, every element with its box, and only puts the new
    overlay in front of it, sized to the scroll size of the container
    and holding the lines computed from that content. *)
Theorem drawTreeLines_adds_overlay (box : Box num) (tag : jsstring)
    (classes : list jsstring) (kids : list (Dom num)) :
  overlays (Elem box tag classes kids) = [] ->
  drawTreeLines num add sub half (Elem box tag classes kids)
  = Elem box tag classes
      (Svg (scrollWidth box) (scrollHeight box)
           (computeEdges num add sub half (Elem box tag classes kids))
       :: kids).
Proof.
  intros Hnone. apply removeFirst_None in Hnone.
  unfold drawTreeLines. now rewrite Hnone.
Qed.

End FreshContainer.

(** The theorem at a container that shows a placeholder text only. *)
Lemma drawTreeLines_adds_overlay_witness :
  overlays
    (Elem (Build_Box 0%nat 0%nat 200%nat 40%nat 200%nat 40%nat) (lit "div")
       [lit "tree-container"] [Text (lit "Compile to see parse tree...")])
  = []
  /\ drawTreeLines nat Nat.add Nat.sub Nat.div2
       (Elem (Build_Box 0%nat 0%nat 200%nat 40%nat 200%nat 40%nat)
          (lit "div") [lit "tree-container"]
          [Text (lit "Compile to see parse tree...")])
     = Elem (Build_Box 0%nat 0%nat 200%nat 40%nat 200%nat 40%nat)
         (lit "div") [lit "tree-container"]
         [Svg 200%nat 40%nat [];
          Text (lit "Compile to see parse tree...")].
Proof.
  split; [reflexivity|].
  exact (drawTreeLines_adds_overlay nat Nat.add Nat.sub Nat.div2
           (Build_Box 0%nat 0%nat 200%nat 40%nat 200%nat 40%nat)
           (lit "div") [lit "tree-container"]
           [Text (lit "Compile to see parse tree...")] eq_refl).
Defined.

(** ** The two displays of a tree *)

Lemma nodeLabel_erased (node : TreeNode) (showCoercion : bool) :
  nodeLabel (eraseTypeInfo node) showCoercion = nodeLabel node false.
Proof.
  destruct node as [nt v on ti l r]. unfold nodeLabel, isIntToFloat.
  cbn [eraseTypeInfo node_type node_value original_name type_info].
  rewrite andb_false_r. reflexivity.
Qed.

Lemma buildTreeHTML_node_erased (showCoercion : bool) (node : TreeNode) :
  buildTreeHTML_node (eraseTypeInfo node) showCoercion
  = buildTreeHTML_node node false.
Proof.
  induction node as [nt v on ti l r IHl IHr] using TreeNode_induction.
  pose proof (nodeLabel_erased (mkTreeNode nt v on ti l r) showCoercion)
    as Hlabel.
  cbn [eraseTypeInfo] in Hlabel |- *. cbn [buildTreeHTML_node].
  unfold nodeClass, displayValue. rewrite Hlabel.
  destruct l as [a|], r as [b|]; cbn [forChild] in *;
    rewrite ?IHl, ?IHr; reflexivity.
Qed.

(** X14. The syntax tree display does not depend on [type_info]: the
    markup written for the syntax tree is the markup of the tree with
    every [type_info] taken away, and so is what the semantic tree
    display writes for that tree: the two displays differ only through
    [type_info]. *)
Theorem syntax_display_ignores_type_info (tree : TreeNode) (p : Page) :
  syntaxTree_innerHTML (outputs (displaySyntaxTree (Some tree) p))
  = buildTreeHTML (Some (eraseTypeInfo tree)) false
  /\ semanticTree_innerHTML
       (outputs (displaySemanticTree (Some (eraseTypeInfo tree)) p))
     = syntaxTree_innerHTML (outputs (displaySyntaxTree (Some tree) p)).
Proof.
  cbn [displaySyntaxTree displaySemanticTree outputs set_outputs
       set_syntaxTree set_semanticTree syntaxTree_innerHTML
       semanticTree_innerHTML buildTreeHTML].
  rewrite !buildTreeHTML_node_erased.
  split; reflexivity.
Qed.

(** X15. The styling of a label follows the node type alone, one style
    at most: the class is [tree-node-value operator] exactly for the
    types OP and ASSIGN, [tree-node-value id] exactly for ID,
    [tree-node-value number] exactly for NUMBER, and the bare
    [tree-node-value] exactly for every other type. *)
Theorem nodeClass_by_type (node : TreeNode) :
  (nodeClass node false = lit "tree-node-value operator"
   <-> node_type node = lit "OP" \/ node_type node = lit "ASSIGN")
  /\ (nodeClass node false = lit "tree-node-value id"
      <-> node_type node = lit "ID")
  /\ (nodeClass node false = lit "tree-node-value number"
      <-> node_type node = lit "NUMBER")
  /\ (nodeClass node false = lit "tree-node-value"
      <-> ~ In (node_type node)
            [lit "OP"; lit "ASSIGN"; lit "ID"; lit "NUMBER"]).
Proof.
  unfold nodeClass, nodeLabel. cbn [andb].
  destruct (jsstring_dec (node_type node) (lit "OP")) as [E|Nop];
    [|destruct (jsstring_dec (node_type node) (lit "ASSIGN")) as [E|Nas];
      [|destruct (jsstring_dec (node_type node) (lit "ID")) as [E|Nid];
        [|destruct (jsstring_dec (node_type node) (lit "NUMBER"))
            as [E|Nnu]]]].
  1-4: rewrite E; vm_compute;
    (split; [|split; [|split]]); split; intros H;
    try reflexivity; try discriminate; auto;
    try (destruct H; discriminate);
    exfalso; apply H; auto 6.
  apply strictEq_false_iff in Nop as Eop.
  apply strictEq_false_iff in Nas as Eas.
  apply strictEq_false_iff in Nid as Eid.
  apply strictEq_false_iff in Nnu as Enu.
  rewrite Eop, Eas, Eid, Enu. cbn [orb fst].
  split; [|split; [|split]]; split; intros H;
    try (vm_compute in H; discriminate); try reflexivity;
    try (destruct H; contradiction); try contradiction.
  cbn [In]. intros [F|[F|[F|[F|[]]]]]; congruence.
Qed.

(** ** The listings *)

Lemma split_without (sep : N) (s : jsstring) :
  ~ In sep s -> split sep s = [s].
Proof.
  induction s as [|c r IH]; intros Hs; cbn [split]; [reflexivity|].
  destruct (N.eqb_spec c sep) as [->|Hne].
  - exfalso. apply Hs. now left.
  - rewrite IH; [reflexivity|]. intros H. apply Hs. now right.
Qed.

Lemma split_app_sep (sep : N) (s rest : jsstring) :
  ~ In sep s ->
  split sep (s ++ sep :: rest) = s :: split sep rest.
Proof.
  induction s as [|c r IH]; intros Hs; cbn [app split].
  - now rewrite N.eqb_refl.
  - destruct (N.eqb_spec c sep) as [->|Hne].
    + exfalso. apply Hs. now left.
    + rewrite IH; [reflexivity|]. intros H. apply Hs. now right.
Qed.

Lemma split_joinWith (sep : N) (l : list jsstring) :
  l <> [] ->
  Forall (fun s => ~ In sep s) l ->
  split sep (joinWith [sep] l) = l.
Proof.
  intros Hne Hall. induction Hall as [|s l Hs Hl IH]; [contradiction|].
  destruct l as [|s' l'].
  - cbn [joinWith]. now apply split_without.
  - change (joinWith [sep] (s :: s' :: l'))
      with (s ++ sep :: joinWith [sep] (s' :: l')).
    rewrite split_app_sep by exact Hs. rewrite IH; [reflexivity|].
    discriminate.
Qed.

(** X16. The three listings keep the instructions apart and in order:
    when there is at least one instruction and none contains a line
    feed, the text written, split at the line feeds, gives the
    instructions back. *)
Theorem listings_split_back (instructions : list jsstring) (p : Page) :
  instructions <> [] ->
  Forall (fun s => ~ In 10 s) instructions ->
  split 10 (icgOutput_textContent (outputs (displayICG instructions p)))
  = instructions
  /\ split 10 (optimizedOutput_textContent
                 (outputs (displayOptimized instructions p)))
     = instructions
  /\ split 10 (assemblyOutput_textContent
                 (outputs (displayAssembly instructions p)))
     = instructions.
Proof.
  intros Hne Hall.
  cbn [displayICG displayOptimized displayAssembly outputs set_outputs
       set_icgOutput set_optimizedOutput set_assemblyOutput
       icgOutput_textContent optimizedOutput_textContent
       assemblyOutput_textContent].
  unfold lineFeed. rewrite split_joinWith by assumption.
  repeat split; reflexivity.
Qed.

(** The theorem at a listing of two instructions. *)
Lemma listings_split_back_witness :
  [lit "t1 = 2 + 3.5"; lit "y = t1"] <> []
  /\ split 10 (icgOutput_textContent
                 (outputs (displayICG [lit "t1 = 2 + 3.5"; lit "y = t1"]
                             loadedPage)))
     = [lit "t1 = 2 + 3.5"; lit "y = t1"].
Proof.
  split; [discriminate|].
  refine (proj1 (listings_split_back [lit "t1 = 2 + 3.5"; lit "y = t1"]
                   loadedPage _ _)).
  - discriminate.
  - repeat constructor; vm_compute; intuition discriminate.
Defined.

(** ** The number of required inputs *)

Lemma remove_length_NoDup (a : jsstring) (l : list jsstring) :
  NoDup l ->
  (List.length (remove jsstring_dec a l)
   + (if in_dec jsstring_dec a l then 1 else 0))%nat
  = List.length l.
Proof.
  induction 1 as [|x l Hx Hl IH]; [reflexivity|].
  cbn [remove].
  destruct (jsstring_dec a x) as [->|Hne].
  - rewrite notin_remove by exact Hx.
    destruct (in_dec jsstring_dec x (x :: l)) as [_|Hout];
      [cbn [List.length]; lia|].
    exfalso. apply Hout. now left.
  - cbn [List.length].
    destruct (in_dec jsstring_dec a l) as [Hin|Hout],
             (in_dec jsstring_dec a (x :: l)) as [Hin'|Hout'];
      try lia.
    + exfalso. apply Hout'. now right.
    + destruct Hin' as [E|Hin']; [congruence|contradiction].
Qed.

(** X17. For a symbol table whose names are not repeated, the required
    inputs are all its names when the assigned variable is not one of
    them (a source without a name before its equals sign, say), and one
    name fewer when it is. *)
Theorem requiredInputs_count (symbolTable : SymbolTable)
    (sourceText : jsstring) :
  NoDup (keys symbolTable) ->
  let assigned := assignedVar sourceText in
  let required := inputVariables symbolTable sourceText in
  (List.length required
   + (if in_dec jsstring_dec assigned (keys symbolTable) then 1 else 0))%nat
  = List.length (keys symbolTable)
  /\ (if in_dec jsstring_dec assigned (keys symbolTable)
      then required <> keys symbolTable
      else required = keys symbolTable).
Proof.
  intros Hnodup assigned required.
  assert (Hremove : required
                    = remove jsstring_dec assigned (keys symbolTable))
    by apply filter_differs_remove.
  pose proof (remove_length_NoDup assigned (keys symbolTable) Hnodup)
    as Hlen.
  rewrite <- Hremove in Hlen. split; [exact Hlen|].
  destruct (in_dec jsstring_dec assigned (keys symbolTable)) as [Hin|Hout].
  - intros E. rewrite E in Hlen. lia.
  - rewrite Hremove. now apply notin_remove.
Qed.

(** The theorem at the example of the specification. *)
Lemma requiredInputs_count_witness :
  NoDup (keys [(lit "x", lit "0"); (lit "a", lit "1"); (lit "b", lit "2")])
  /\ List.length
       (inputVariables
          [(lit "x", lit "0"); (lit "a", lit "1"); (lit "b", lit "2")]
          (lit "x = a + b")) = 2%nat.
Proof.
  assert (H : NoDup (keys [(lit "x", lit "0"); (lit "a", lit "1");
                           (lit "b", lit "2")])).
  { repeat constructor; cbn; intuition discriminate. }
  split; [exact H|].
  pose proof (proj1 (requiredInputs_count
                       [(lit "x", lit "0"); (lit "a", lit "1");
                        (lit "b", lit "2")]
                       (lit "x = a + b") H)) as Hcount.
  vm_compute in Hcount. vm_compute. lia.
Defined.

(** ** Tokens and symbol table on display *)

(** X18. The tokens and the rows of the symbol table are written one
    after the other in the order received: what is shown for two lists
    in a row is what is shown for the first followed by what is shown
    for the second.  No token, or an empty symbol table, gives empty
    content, and each display replaces what the same display wrote
    before. *)
Theorem displays_keep_order (tokens1 tokens2 : list Token)
    (table1 table2 : SymbolTable) (p : Page) :
  tokensOutput_innerHTML (outputs (displayTokens (tokens1 ++ tokens2) p))
  = tokensOutput_innerHTML (outputs (displayTokens tokens1 p))
    ++ tokensOutput_innerHTML (outputs (displayTokens tokens2 p))
  /\ symbolTableBody_innerHTML
       (outputs (displaySymbolTable (table1 ++ table2) p))
     = symbolTableBody_innerHTML (outputs (displaySymbolTable table1 p))
       ++ symbolTableBody_innerHTML (outputs (displaySymbolTable table2 p))
  /\ tokensOutput_innerHTML (outputs (displayTokens tokens1 p))
     = concat (map tokenMarkup tokens1)
  /\ symbolTableBody_innerHTML (outputs (displaySymbolTable table1 p))
     = concat (map rowMarkup table1)
  /\ tokensOutput_innerHTML (outputs (displayTokens [] p)) = []
  /\ symbolTableBody_innerHTML (outputs (displaySymbolTable [] p)) = []
  /\ displayTokens tokens2 (displayTokens tokens1 p)
     = displayTokens tokens2 p
  /\ displaySymbolTable table2 (displaySymbolTable table1 p)
     = displaySymbolTable table2 p.
Proof.
  cbn [displayTokens displaySymbolTable outputs set_outputs
       set_tokensOutput set_symbolTableBody tokensOutput_innerHTML
       symbolTableBody_innerHTML].
  unfold join. rewrite !map_app, !concat_app.
  repeat split; reflexivity.
Qed.

(** ** Requests of a run *)

Lemma handle_sends_at_most_one (c : Controller) (e : Event) :
  (List.length (snd (handle c e))
   <= (if callsHandler e then 1 else 0))%nat.
Proof.
  assert (Hanalyze : forall reply,
             (List.length (snd (runAnalyze c reply)) <= 1)%nat).
  { intros reply. unfold runAnalyze, analyzeLexical.
    destruct (negb (truthy (trim (codeInput_value (page c)))));
      [cbn; lia|].
    destruct reply; cbn; lia. }
  destruct e as [reply|key reply|reply| |code|id t];
    cbn [handle callsHandler]; try (cbn; lia).
  - apply Hanalyze.
  - destruct (strictEq key (lit "Enter")); [apply Hanalyze|cbn; lia].
  - unfold clickCompile.
    destruct (compileBtn_disabled (page c)); [cbn; lia|].
    unfold runCompile.
    pose proof (compile_sends (page c) reply) as Hsent.
    destruct (compile (page c) reply) as [p' sent]. cbn [snd] in *.
    rewrite Hsent. cbn. lia.
Qed.

(** X19. The page sends at most one request for each click on the
    analyze or the compile button and each Enter key pressed in the code
    input, and none for anything else: a reset, typing, another key or
    the choice of an option never reach the service. *)
Theorem run_sends_at_most_one_each (events : list Event) (c : Controller) :
  (List.length (snd (run c events))
   <= List.length (filter callsHandler events))%nat.
Proof.
  revert c. induction events as [|e rest IH]; intros c; cbn [run filter].
  - cbn. lia.
  - pose proof (handle_sends_at_most_one c e) as Hstep.
    destruct (handle c e) as [c1 sent1]. specialize (IH c1).
    destruct (run c1 rest) as [c2 sent2]. cbn [snd] in *.
    rewrite length_app.
    destruct (callsHandler e); cbn [List.length]; lia.
Qed.

(** ** The markup of a tree as elements *)


(** ** A prompt that is not needed *)

(** X21. Let an analysis succeed on a page without selectors (as after a
    reset) with no input required, no selector id being taken by another
    element of the page.  Then the type prompt is hidden, the type table
    collected is empty, and a compilation started then sends the trimmed
    source with an empty type table. *)
Theorem no_input_required_empty_table (p : Page) (data : LexicalData)
    (reply : Reply CompileData) :
  truthy (trim (codeInput_value p)) = true ->
  inputVariables (symbol_table data) (codeInput_value p) = [] ->
  typeInputs_content p = [] ->
  selectorIdsFree p (keys (symbol_table data)) ->
  let p' := fst (analyzeLexical p (Succeeded data)) in
  typeTableSection_display p' = lit "none"
  /\ getTypeTable p' = []
  /\ snd (compile p' reply) = [PostCompile (trim (codeInput_value p)) []].
Proof.
  intros Hcode Hrequired Hselectors [Hinputs Hfree] p'.
  assert (Hp' : currentSymbolTable p' = symbol_table data
                /\ typeInputs_content p' = []
                /\ elementsBefore p' = elementsBefore p
                /\ elementsAfter p' = elementsAfter p
                /\ codeInput_value p' = codeInput_value p
                /\ typeTableSection_display p' = lit "none").
  { unfold p', analyzeLexical, showTypeInputs. rewrite Hcode.
    cbn [negb fst codeInput_value set_compileBtn_disabled
         set_currentSymbolTable displaySymbolTable displayTokens
         clearOutputs hideError set_outputs set_errorDisplay].
    rewrite Hrequired. cbn [List.length Nat.eqb].
    repeat split; try reflexivity. exact Hselectors. }
  destruct Hp' as (Htable & Hnone & Hbefore & Hafter & Hsource & Hhidden).
  assert (Hempty : getTypeTable p' = []).
  { destruct (getTypeTable p') as [|[k v] rest] eqn:E; [reflexivity|].
    exfalso.
    assert (Hk : In k (map fst (getTypeTable p')))
      by (rewrite E; now left).
    apply getTypeTable_keys in Hk as [Hk Hfound]. apply Hfound.
    rewrite Htable in Hk.
    rewrite getElementById_selector.
    - now rewrite Hnone.
    - intros ->. contradiction.
    - rewrite Hbefore, Hafter. intros e He. now apply Hfree. }
  split; [exact Hhidden|]. split; [exact Hempty|].
  now rewrite compile_sends, Hempty, Hsource.
Qed.

(** The theorem at the example of the specification: [y = 2 + 3.5]
    typed into the loaded page, with the symbol table [{y: 0}]. *)
Lemma no_input_required_empty_table_witness :
  truthy (trim (codeInput_value (typeCode (lit "y = 2 + 3.5") loadedPage)))
  = true
  /\ snd (compile
            (fst (analyzeLexical (typeCode (lit "y = 2 + 3.5") loadedPage)
                    (Succeeded {| tokens := [];
                                  symbol_table := [(lit "y", lit "0")] |})))
            (Thrown []))
     = [PostCompile (lit "y = 2 + 3.5") []].
Proof.
  split; [reflexivity|].
  refine (proj2 (proj2 (no_input_required_empty_table
                          (typeCode (lit "y = 2 + 3.5") loadedPage)
                          {| tokens := [];
                             symbol_table := [(lit "y", lit "0")] |}
                          (Thrown []) eq_refl eq_refl eq_refl _))).
  split.
  - cbn. intuition discriminate.
  - intros k e Hk He. cbn in Hk, He.
    destruct Hk as [<-|[]].
    repeat (destruct He as [<-|He]; [discriminate|]). destruct He.
Defined.
